(** * jobs-analyzer: the scraping core of [src/scrape.py]

    A shallow embedding of [make_url], [load_elements], [get_search_jobs]
    and [get_job_data], and the properties of the specification that
    concern them.

    Python values are modelled as follows.
    - [str] is [string]; a character is a code point below 256.
    - [int] is [Z].
    - A Selenium [WebElement] is the snapshot of what the code reads from
      it: its rendered [text] and its [href] attribute ([None] when the
      attribute is missing).
    - The browser session is an abstract world; every call on the driver
      is a function of the world that returns a value or raises, and the
      world after the call. *)

From Stdlib Require Import String Ascii List ZArith NArith Lia Bool.
From Stdlib Require Import DecimalString DecimalZ DecimalPos.
Import ListNotations.

Local Open Scope string_scope.
Local Open Scope list_scope.

(** ** Python primitives used by the module *)

Module Py.

(** The exceptions the code can meet. *)
Inductive exn : Type :=
| IndexError
| ValueError
| TimeoutException
| NoSuchElementException
| ElementClickInterceptedException
| StaleElementReferenceException
| WebDriverException.

(** The outcome of evaluating an expression: a value, or a raised
    exception. *)
Inductive result (A : Type) : Type :=
| Ok (a : A)
| Raise (e : exn).
Arguments Ok {A} a.
Arguments Raise {A} e.

Definition bind_result {A B} (r : result A) (k : A -> result B) : result B :=
  match r with
  | Ok a => k a
  | Raise e => Raise e
  end.

Definition exn_of {A} (r : result A) : option exn :=
  match r with
  | Ok _ => None
  | Raise e => Some e
  end.

(** [s.split(sep)] for a one-character separator: every occurrence of
    [sep] ends a field, so a string with [n] separators has [n + 1]
    fields, empty ones included. *)
Fixpoint str_split (sep : ascii) (s : string) : list string :=
  match s with
  | EmptyString => [EmptyString]
  | String c rest =>
      if Ascii.eqb c sep then EmptyString :: str_split sep rest
      else match str_split sep rest with
           | [] => [String c EmptyString]
           | f :: fs => String c f :: fs
           end
  end.

(** [sep.join(l)]. *)
Fixpoint str_join (sep : string) (l : list string) : string :=
  match l with
  | [] => EmptyString
  | [x] => x
  | x :: rest => x ++ sep ++ str_join sep rest
  end.

(** [l[i]] for a literal index [i >= 0]. *)
Definition getitem {A} (l : list A) (i : nat) : result A :=
  match nth_error l i with
  | Some x => Ok x
  | None => Raise IndexError
  end.

(** [c.isspace()] on the code points below 256: TAB..CR, FS..US, the
    space, NEL and the no-break space. *)
Definition isspace (c : ascii) : bool :=
  let n := N_of_ascii c in
  ((9 <=? n) && (n <=? 13) || (28 <=? n) && (n <=? 32)
   || (n =? 133) || (n =? 160))%N.

Fixpoint lstrip (s : string) : string :=
  match s with
  | EmptyString => EmptyString
  | String c rest => if isspace c then lstrip rest else s
  end.

Fixpoint rstrip (s : string) : string :=
  match s with
  | EmptyString => EmptyString
  | String c rest =>
      match rstrip rest with
      | EmptyString => if isspace c then EmptyString else String c EmptyString
      | r => String c r
      end
  end.

(** [s.strip()]. *)
Definition strip (s : string) : string := rstrip (lstrip s).

(** [str(n)] for an [int], as an f-string renders it. *)
Definition str_of_int (n : Z) : string :=
  NilZero.string_of_int (Z.to_int n).

(** [range(n)] as the list of its values; empty when [n <= 0]. *)
Definition range (n : Z) : list Z :=
  map Z.of_nat (seq 0 (Z.to_nat n)).

End Py.

Import Py.

Notation "x <-? c ;; k" := (bind_result c (fun x => k))
  (at level 61, c at next level, right associativity).

Definition LF : ascii := Ascii.ascii_of_nat 10.

(** ** Elements and records *)

Record WebElement : Type := {
  text : string;
  href : option string
}.

(** [item.get_attribute("href")]. *)
Definition get_attribute_href (item : WebElement) : option string := href item.

(** The dict built by [get_search_jobs] for one listing. *)
Record ListingSummary : Type := {
  title : string;
  category : string;
  location : string;
  position_type : string;
  salary : string;
  company : string;
  date : string;
  url : option string
}.

(** The dict returned by [get_job_data]. *)
Record ListingDetail : Type := {
  detail_url : string;
  description : string;
  keywords : list string
}.

(** ** [make_url] *)

Definition make_url (countries tags : list string) (posted_since : Z) : string :=
  let countries_str := str_join "," countries in
  let tags_str := str_join "," tags in
  "https://www.workingnomads.com/jobs?tag=" ++ tags_str
    ++ "&location=" ++ countries_str
    ++ "&postedDate=" ++ str_of_int posted_since.

(** ** [get_search_jobs] *)

(** The body of the [for] loop: [Ok None] is the [continue] of an item
    with too few fields, [Ok (Some output)] the dict to append. *)
Definition summarize (item : WebElement) : result (option ListingSummary) :=
  let item_metadata := str_split LF (text item) in
  let num_fields := length item_metadata in
  if (num_fields <? 6)%nat then Ok None
  else
    title_ <-? getitem item_metadata 0 ;;
    category_ <-? getitem item_metadata 1 ;;
    location_ <-? getitem item_metadata 2 ;;
    position_type_ <-? getitem item_metadata 3 ;;
    salary_ <-? (if (num_fields =? 7)%nat then getitem item_metadata 4
                 else Ok "Unknown") ;;
    company_ <-? (if (num_fields =? 7)%nat then getitem item_metadata 5
                  else getitem item_metadata 4) ;;
    date_ <-? (if (num_fields =? 7)%nat then getitem item_metadata 6
               else getitem item_metadata 5) ;;
    let url_link := get_attribute_href item in
    Ok (Some {| title := title_; category := category_;
                location := location_; position_type := position_type_;
                salary := salary_; company := company_; date := date_;
                url := url_link |}).

(** The loop over [elements], threading [all_outputs]; [tqdm] hands the
    elements over in their order and only reports progress. *)
Fixpoint for_items (elements : list WebElement)
    (all_outputs : list ListingSummary) : result (list ListingSummary) :=
  match elements with
  | [] => Ok all_outputs
  | item :: rest =>
      o <-? summarize item ;;
      match o with
      | None => for_items rest all_outputs
      | Some output => for_items rest (all_outputs ++ [output])
      end
  end.

Definition get_search_jobs (elements : list WebElement)
    : result (list ListingSummary) :=
  for_items elements [].

(** ** [web_driver] *)

(** [Options.add_argument] of Selenium: it appends the argument, and
    raises [ValueError] on an empty one. *)
Definition add_argument (arguments : list string) (argument : string)
    : result (list string) :=
  if String.eqb argument EmptyString then Raise ValueError
  else Ok (arguments ++ [argument]).

(** The truth value of [user_agent_string] in the [if]: [None] and the
    empty string are false. *)
Definition truthy (value : option string) : bool :=
  match value with
  | None => false
  | Some s => negb (String.eqb s EmptyString)
  end.

(** [f"user-agent={user_agent_string}"], evaluated only on a string. *)
Definition user_agent_argument (value : option string) : string :=
  match value with
  | None => "user-agent=None"
  | Some s => "user-agent=" ++ s
  end.

Section Host.

(** The driver sessions, the outcome of [ChromeDriverManager().install()]
    (the path of the driver binary) and [webdriver.Chrome] given that
    path and the arguments of the options. *)
Variable Driver : Type.
Variable install : result string.
Variable chrome : string -> list string -> result Driver.

Definition web_driver (user_agent_string : option string) : result Driver :=
  options <-? Ok [] ;;
  options <-? add_argument options "--headless" ;;
  options <-? add_argument options "--no-sandbox" ;;
  options <-? add_argument options "--disable-gpu" ;;
  options <-? add_argument options "--window-size=1920,1200" ;;
  options <-? add_argument options "--disable-dev-shm-usage" ;;
  options <-? (if truthy user_agent_string
               then add_argument options
                      (user_agent_argument user_agent_string)
               else Ok options) ;;
  path <-? install ;;
  chrome path options.

End Host.

Arguments web_driver {Driver}.

(** ** The browser session *)

Inductive By : Type := CLASS_NAME | XPATH.

(** The calls the code makes on its surroundings, in the order it makes
    them; the log of a run pairs each call with the exception it raised,
    if any. *)
Inductive Call : Type :=
| CallGet (url : string)
| CallUntilClickable (timeout : Z) (by_ : By) (value : string)
| CallClick (el : WebElement)
| CallSleep
| CallPrint (msg : string)
| CallFindElement (by_ : By) (value : string)
| CallFindElements (by_ : By) (value : string).

Abbreviation Entry := (Call * option exn)%type.

(** What a loop body asks of its loop: go on, or [break]. *)
Inductive flow : Type := Next | Break.

Section Session.

(** The state of the browser and of the clock, and the type of
    [sleep_time], which the code only hands to [time.sleep]. *)
Variable World : Type.
Variable Duration : Type.

(** The operations of Selenium and of [time] that the code calls.
    [until_clickable t by v] is
    [WebDriverWait(driver, t).until(EC.element_to_be_clickable((by, v)))]. *)
Record Browser : Type := {
  driver_get : string -> World -> result unit * World;
  until_clickable : Z -> By -> string -> World -> result WebElement * World;
  click : WebElement -> World -> result unit * World;
  sleep : Duration -> World -> result unit * World;
  find_element : By -> string -> World -> result WebElement * World;
  find_elements : By -> string -> World -> result (list WebElement) * World
}.

Definition state : Type := World * list Entry.

(** Computations that read and change the session and may raise. *)
Definition M (A : Type) : Type := state -> result A * state.

Definition ret {A} (a : A) : M A := fun s => (Ok a, s).

Definition bind {A B} (m : M A) (k : A -> M B) : M B :=
  fun s =>
    match m s with
    | (Ok a, s') => k a s'
    | (Raise e, s') => (Raise e, s')
    end.

(** One call on the surroundings, appended to the log. *)
Definition call {A} (c : Call) (op : World -> result A * World) : M A :=
  fun s =>
    let (r, w') := op (fst s) in
    (r, (w', snd s ++ [(c, exn_of r)])).

Definition print (msg : string) : M unit :=
  call (CallPrint msg) (fun w => (Ok tt, w)).

(** [try: body / except: handler], the bare [except] that catches
    every exception. *)
Definition try_except {A} (body handler : M A) : M A :=
  fun s =>
    match body s with
    | (Raise _, s') => handler s'
    | (Ok a, s') => (Ok a, s')
    end.

(** [while True: body], by fuel: [None] when the fuel runs out before
    the loop ends. *)
Fixpoint while_true (fuel : nat) (body : M flow) (s : state)
    : option (result unit * state) :=
  match fuel with
  | O => None
  | S fuel' =>
      match body s with
      | (Ok Next, s') => while_true fuel' body s'
      | (Ok Break, s') => Some (Ok tt, s')
      | (Raise e, s') => Some (Raise e, s')
      end
  end.

(** [for i in values: body i]. *)
Fixpoint for_each {I} (body : I -> M flow) (values : list I) : M unit :=
  match values with
  | [] => ret tt
  | i :: rest =>
      fun s =>
        match body i s with
        | (Ok Next, s') => for_each body rest s'
        | (Ok Break, s') => (Ok tt, s')
        | (Raise e, s') => (Raise e, s')
        end
  end.

Variable driver : Browser.

Notation "x <- c ;; k" := (bind c (fun x => k))
  (at level 61, c at next level, right associativity).

(** *** [load_elements] *)

Definition show_more_class : string := "show-more".
Definition job_card_xpath : string := "//a[contains(@class,'job-desktop')]".

(** The [try] statement of either loop; the two differ in what they
    print. *)
Definition expand (clicked_msg missing_msg : string) (sleep_time : Duration)
    : M flow :=
  try_except
    (show_more <- call (CallUntilClickable 5 CLASS_NAME show_more_class)
                    (until_clickable driver 5 CLASS_NAME show_more_class) ;;
     _ <- call (CallClick show_more) (click driver show_more) ;;
     _ <- print clicked_msg ;;
     _ <- call CallSleep (sleep driver sleep_time) ;;
     ret Next)
    (_ <- print missing_msg ;;
     ret Break).

Definition expand_full (sleep_time : Duration) : M flow :=
  expand "Clicked 'Show More'" "No more 'Show More' button found" sleep_time.

Definition expand_bounded (clicks : Z) (sleep_time : Duration) (i : Z)
    : M flow :=
  expand
    ("Clicked 'Show More' (" ++ str_of_int (i + 1) ++ "/"
       ++ str_of_int clicks ++ ")")
    "No more 'Show More' button found before reaching the target clicks"
    sleep_time.

Definition load_elements (fuel : nat) (url_ : string) (full_load : bool)
    (clicks : Z) (sleep_time : Duration) (s : state)
    : option (result (list WebElement) * state) :=
  match call (CallGet url_) (driver_get driver url_) s with
  | (Raise e, s0) => Some (Raise e, s0)
  | (Ok _, s0) =>
      let looped :=
        if full_load then while_true fuel (expand_full sleep_time) s0
        else Some (for_each (expand_bounded clicks sleep_time)
                     (range clicks) s0) in
      match looped with
      | None => None
      | Some (Raise e, s1) => Some (Raise e, s1)
      | Some (Ok _, s1) =>
          Some (call (CallFindElements XPATH job_card_xpath)
                  (find_elements driver XPATH job_card_xpath) s1)
      end
  end.

(** *** [get_job_data] *)

(** The list comprehension
    [[e.text for e in elements if e.text.strip() != '']], appending to
    the list under construction. *)
Fixpoint tag_texts (elements : list WebElement) (acc : list string)
    : list string :=
  match elements with
  | [] => acc
  | e :: rest =>
      if negb (String.eqb (strip (text e)) EmptyString)
      then tag_texts rest (acc ++ [text e])
      else tag_texts rest acc
  end.

Definition get_job_data (url_ : string) : M ListingDetail :=
  _ <- call (CallGet url_) (driver_get driver url_) ;;
  detail <- call (CallFindElement CLASS_NAME "job-detail")
              (find_element driver CLASS_NAME "job-detail") ;;
  let job_description := text detail in
  tags <- call (CallFindElements CLASS_NAME "tag")
            (find_elements driver CLASS_NAME "tag") ;;
  let job_keywords := tag_texts tags [] in
  ret {| detail_url := url_; description := job_description;
         keywords := job_keywords |}.

(** *** Runs of the expand loop, told from the session alone *)

(** [expands sleep_time k w w']: from [w], [k] rounds in a row find
    the control, click it and sleep without a fault, and leave [w']. *)
Inductive expands (sleep_time : Duration) : nat -> World -> World -> Prop :=
| expands_none w : expands sleep_time 0 w w
| expands_more k w el w1 w2 w3 w' :
    until_clickable driver 5 CLASS_NAME show_more_class w = (Ok el, w1) ->
    click driver el w1 = (Ok tt, w2) ->
    sleep driver sleep_time w2 = (Ok tt, w3) ->
    expands sleep_time k w3 w' ->
    expands sleep_time (S k) w w'.

(** [unavailable w e w']: the control is not found clickable within
    the timeout at [w]; the wait raises [e] and leaves [w']. *)
Definition unavailable (w : World) (e : exn) (w' : World) : Prop :=
  until_clickable driver 5 CLASS_NAME show_more_class w = (Raise e, w').

(** [round_fault sleep_time w e w']: a round started at [w] raises [e]
    in the wait, in the click or in the sleep, and leaves [w']. *)
Inductive round_fault (sleep_time : Duration) (w : World) (e : exn)
    (w' : World) : Prop :=
| fault_in_wait : unavailable w e w' -> round_fault sleep_time w e w'
| fault_in_click el w1 :
    until_clickable driver 5 CLASS_NAME show_more_class w = (Ok el, w1) ->
    click driver el w1 = (Raise e, w') ->
    round_fault sleep_time w e w'
| fault_in_sleep el w1 w2 :
    until_clickable driver 5 CLASS_NAME show_more_class w = (Ok el, w1) ->
    click driver el w1 = (Ok tt, w2) ->
    sleep driver sleep_time w2 = (Raise e, w') ->
    round_fault sleep_time w e w'.

(** The outcome of collecting the listing cards at [w]. *)
Definition collect (w : World) : result (list WebElement) * World :=
  find_elements driver XPATH job_card_xpath w.

End Session.

Arguments driver_get {World Duration}.
Arguments until_clickable {World Duration}.
Arguments click {World Duration}.
Arguments sleep {World Duration}.
Arguments find_element {World Duration}.
Arguments find_elements {World Duration}.
Arguments load_elements {World Duration}.
Arguments get_job_data {World Duration}.
Arguments expands {World Duration}.
Arguments unavailable {World Duration}.
Arguments round_fault {World Duration}.
Arguments collect {World Duration}.
Arguments call {World A}.
Arguments print {World}.
Arguments expand {World Duration}.
Arguments expand_full {World Duration}.
Arguments expand_bounded {World Duration}.
Arguments while_true {World}.
Arguments for_each {World I}.

(** Counting the calls of a log. *)
Definition is_wait (en : Entry) : bool :=
  match fst en with CallUntilClickable _ _ _ => true | _ => false end.
Definition is_click (en : Entry) : bool :=
  match fst en with CallClick _ => true | _ => false end.

Definition count (p : Entry -> bool) (log : list Entry) : nat :=
  length (filter p log).

(** ** A scripted browser

    A session whose page is a script: the cards shown, the batches a
    click on the control would still reveal, the description block and
    the tag labels of a detail page, and whether a click goes through.
    It stands for the browser in the examples below. *)

Module Scripted.

Record Page : Type := {
  cards : list WebElement;
  pending : list (list WebElement);
  detail_block : option WebElement;
  tag_labels : list WebElement;
  click_intercepted : bool
}.

Definition button : WebElement := {| text := "Show more"; href := None |}.

Definition wait_clickable (timeout : Z) (by_ : By) (value : string)
    (p : Page) : result WebElement * Page :=
  match pending p with
  | [] => (Raise TimeoutException, p)
  | _ :: _ => (Ok button, p)
  end.

Definition do_click (el : WebElement) (p : Page) : result unit * Page :=
  if click_intercepted p then (Raise ElementClickInterceptedException, p)
  else
    match pending p with
    | [] => (Raise StaleElementReferenceException, p)
    | batch :: later =>
        (Ok tt, {| cards := cards p ++ batch; pending := later;
                   detail_block := detail_block p;
                   tag_labels := tag_labels p;
                   click_intercepted := click_intercepted p |})
    end.

(** [time.sleep] raises [ValueError] on a negative length. *)
Definition do_sleep (t : Z) (p : Page) : result unit * Page :=
  if (t <? 0)%Z then (Raise ValueError, p) else (Ok tt, p).

Definition first_match (by_ : By) (value : string) (p : Page)
    : result WebElement * Page :=
  match detail_block p with
  | Some el => (Ok el, p)
  | None => (Raise NoSuchElementException, p)
  end.

Definition all_matches (by_ : By) (value : string) (p : Page)
    : result (list WebElement) * Page :=
  match by_ with
  | XPATH => (Ok (cards p), p)
  | CLASS_NAME => (Ok (tag_labels p), p)
  end.

Definition browser : Browser Page Z := {|
  driver_get := fun _ p => (Ok tt, p);
  until_clickable := wait_clickable;
  click := do_click;
  sleep := do_sleep;
  find_element := first_match;
  find_elements := all_matches
|}.

(** A page that scrolls without end: the control is always there, and
    the session counts the clicks made. *)
Definition endless : Browser nat Z := {|
  driver_get := fun _ n => (Ok tt, n);
  until_clickable := fun _ _ _ n => (Ok button, n);
  click := fun _ n => (Ok tt, S n);
  sleep := fun _ n => (Ok tt, n);
  find_element := fun _ _ n => (Raise NoSuchElementException, n);
  find_elements := fun _ _ n => (Ok [], n)
|}.

(** A browser that loses the page when asked for several elements. *)
Definition flaky : Browser Page Z := {|
  driver_get := fun _ p => (Ok tt, p);
  until_clickable := wait_clickable;
  click := do_click;
  sleep := do_sleep;
  find_element := first_match;
  find_elements := fun _ _ p => (Raise WebDriverException, p)
|}.

(** A browser whose navigation fails. *)
Definition offline : Browser Page Z := {|
  driver_get := fun _ p => (Raise WebDriverException, p);
  until_clickable := wait_clickable;
  click := do_click;
  sleep := do_sleep;
  find_element := first_match;
  find_elements := all_matches
|}.

Definition card (t : string) (u : string) : WebElement :=
  {| text := t; href := Some u |}.

Definition lines (fields : list string) : string :=
  str_join (String LF EmptyString) fields.

Definition backend : WebElement :=
  card (lines ["Backend Engineer"; "Engineering"; "Remote/UK"; "Full-time";
               "$80k-$100k"; "Acme Co"; "2024-01-01"])
       "https://www.workingnomads.com/jobs/backend-engineer".

Definition analyst : WebElement :=
  card (lines ["Data Analyst"; "Data"; "Remote/USA"; "Contract";
               "BetaCorp"; "2024-01-02"])
       "https://www.workingnomads.com/jobs/data-analyst".

Definition malformed : WebElement :=
  card (lines ["OnlyTitle"; "OnlyCategory"])
       "https://www.workingnomads.com/jobs/only".

Definition featured : WebElement :=
  card (lines ["ML Engineer"; "Engineering"; "Remote"; "Full-time";
               "Gamma"; "2024-01-03"; "Featured"; "New"])
       "https://www.workingnomads.com/jobs/ml-engineer".

(** An anchor of the listing class that carries no link target. *)
Definition unlinked : WebElement :=
  {| text := lines ["Data Analyst"; "Data"; "Remote/USA"; "Contract";
                    "BetaCorp"; "2024-01-02"];
     href := None |}.

Definition backend_summary : ListingSummary :=
  {| title := "Backend Engineer"; category := "Engineering";
     location := "Remote/UK"; position_type := "Full-time";
     salary := "$80k-$100k"; company := "Acme Co"; date := "2024-01-01";
     url := Some "https://www.workingnomads.com/jobs/backend-engineer" |}.

Definition analyst_summary : ListingSummary :=
  {| title := "Data Analyst"; category := "Data";
     location := "Remote/USA"; position_type := "Contract";
     salary := "Unknown"; company := "BetaCorp"; date := "2024-01-02";
     url := Some "https://www.workingnomads.com/jobs/data-analyst" |}.

(** An anchor of the listing class whose link target is empty. *)
Definition blank_link : WebElement :=
  {| text := lines ["ML Engineer"; "Engineering"; "Remote"; "Full-time";
                    "$90k"; "Gamma"; "2024-01-03"];
     href := Some EmptyString |}.

Definition tag (t : string) : WebElement := {| text := t; href := None |}.

(** The filters of [scripts/scrape_data.py]. *)
Definition script_countries : list string :=
  ["usa"; "uk"; "canada"; "australia"; "austria"; "belgium"; "denmark";
   "finland"; "france"; "germany"; "new-zealand"; "norway"; "sweden";
   "switzerland"; "netherlands"; "spain"].

Definition script_tags : list string :=
  ["data-science"; "machine-learning"; "artificial-intelligence";
   "data-engineering"].


(** A results page showing one card, with two more batches behind the
    control. *)
Definition results : Page := {|
  cards := [backend];
  pending := [[analyst]; [malformed]];
  detail_block := None;
  tag_labels := [];
  click_intercepted := false
|}.

(** The same page with an overlay that intercepts the click. *)
Definition covered : Page := {|
  cards := [backend];
  pending := [[analyst]; [malformed]];
  detail_block := None;
  tag_labels := [];
  click_intercepted := true
|}.

(** The results page once the first batch is revealed. *)
Definition half_revealed : Page := {|
  cards := [backend; analyst];
  pending := [[malformed]];
  detail_block := None;
  tag_labels := [];
  click_intercepted := false
|}.

(** The results page once both batches are revealed. *)
Definition revealed : Page := {|
  cards := [backend; analyst; malformed];
  pending := [];
  detail_block := None;
  tag_labels := [];
  click_intercepted := false
|}.

(** A detail page with its description and tags, one of them blank. *)
Definition posting : Page := {|
  cards := [];
  pending := [];
  detail_block := Some (tag "We are hiring.");
  tag_labels := [tag "python"; tag "  "; tag "sql"; tag EmptyString; tag "python"];
  click_intercepted := false
|}.

(** A detail page without the description block. *)
Definition bare : Page := {|
  cards := [];
  pending := [];
  detail_block := None;
  tag_labels := [tag "python"];
  click_intercepted := false
|}.

End Scripted.

(** ** Vocabulary of the statements *)

(** A string free of the character [sep]. *)
Fixpoint free_of (sep : ascii) (s : string) : bool :=
  match s with
  | EmptyString => true
  | String c rest => negb (Ascii.eqb c sep) && free_of sep rest
  end.

(** The query parameters of a URL: what follows its one [?], split on
    [&]; none when the URL has no [?] or several. *)
Definition query_of (u : string) : list string :=
  match str_split "?" u with
  | [_; q] => str_split "&" q
  | _ => []
  end.



(** The fields of a listing: its rendered text split on line breaks. *)
Definition fields (item : WebElement) : list string :=
  str_split LF (text item).

(** A listing with at least six fields. *)
Definition has_six_fields (item : WebElement) : bool :=
  (6 <=? length (fields item))%nat.

(** [item] yields the record [output]. *)
Definition yields (item : WebElement) (output : ListingSummary) : Prop :=
  summarize item = Ok (Some output).

(** A record whose url is a non-empty string. *)
Definition url_nonempty (output : ListingSummary) : Prop :=
  exists u, url output = Some u /\ u <> EmptyString.

(** An element whose link target is a non-empty string. *)
Definition linked (item : WebElement) : Prop :=
  exists u, href item = Some u /\ u <> EmptyString.

(** A run in which every fault of a call other than the wait for the
    control is the exception the run ends with. *)
Definition other_faults_abort {World A}
    (run : option (result A * state World)) : Prop :=
  forall r s, run = Some (r, s) ->
  forall c e, In (c, Some e) (snd s) -> is_wait (c, Some e) = false ->
  r = Raise e.

(** A tag label whose trimmed text is not empty. *)
Definition labelled (e : WebElement) : bool :=
  negb (String.eqb (strip (text e)) EmptyString).

(** The number of occurrences of a character in a string. *)
Fixpoint count_char (c : ascii) (s : string) : nat :=
  match s with
  | EmptyString => 0
  | String x rest =>
      (if Ascii.eqb x c then 1 else 0) + count_char c rest
  end.

(** A listing whose text holds at least five line breaks. *)
Definition has_five_breaks (item : WebElement) : bool :=
  (5 <=? count_char LF (text item))%nat.

(** The seven text fields of a record. *)
Definition text_fields (output : ListingSummary) : list string :=
  [title output; category output; location output; position_type output;
   salary output; company output; date output].

(** A non-empty list of tokens none of which holds a comma, a question
    mark or an ampersand. *)
Definition plain_tokens (tokens : list string) : bool :=
  match tokens with
  | [] => false
  | _ :: _ =>
      forallb (fun s => free_of "," s && free_of "?" s && free_of "&" s)
        tokens
  end.

(** A string with a character that is not whitespace. *)
Definition has_ink (s : string) : bool :=
  existsb (fun c => negb (isspace c)) (list_ascii_of_string s).

(** Kinds of log entries. *)
Definition is_get (en : Entry) : bool :=
  match fst en with CallGet _ => true | _ => false end.
Definition is_sleep (en : Entry) : bool :=
  match fst en with CallSleep => true | _ => false end.
Definition is_lookup (en : Entry) : bool :=
  match fst en with
  | CallFindElement _ _ | CallFindElements _ _ => true
  | _ => false
  end.
Definition answered (en : Entry) : bool :=
  match snd en with None => true | Some _ => false end.

(** The log of one round of the expand loop: the round that asks for
    the next one, and the three rounds that break. *)
Inductive round_log : flow -> list Entry -> Prop :=
| round_through el said :
    round_log Next
      [(CallUntilClickable 5 CLASS_NAME show_more_class, None);
       (CallClick el, None); (CallPrint said, None); (CallSleep, None)]
| round_no_control e said :
    round_log Break
      [(CallUntilClickable 5 CLASS_NAME show_more_class, Some e);
       (CallPrint said, None)]
| round_no_click el e said :
    round_log Break
      [(CallUntilClickable 5 CLASS_NAME show_more_class, None);
       (CallClick el, Some e); (CallPrint said, None)]
| round_no_sleep el e said said' :
    round_log Break
      [(CallUntilClickable 5 CLASS_NAME show_more_class, None);
       (CallClick el, None); (CallPrint said, None);
       (CallSleep, Some e); (CallPrint said', None)].

(** The log of a loop: rounds that go through, then nothing or one
    round that breaks. *)
Inductive loop_log : list Entry -> Prop :=
| loop_done : loop_log []
| loop_broken entries : round_log Break entries -> loop_log entries
| loop_round entries rest :
    round_log Next entries -> loop_log rest -> loop_log (entries ++ rest).

(** A session in which the control never runs out: any number of
    rounds goes through. *)
Definition always_expands {World Duration} (driver : Browser World Duration)
    (sleep_time : Duration) (w : World) : Prop :=
  forall k, exists w', expands driver sleep_time k w w'.

(** ** Properties of the Python primitives *)

Module PyFacts.

Lemma str_split_not_nil sep s : str_split sep s <> [].
Proof.
  destruct s as [|c rest]; simpl; [discriminate|].
  destruct (Ascii.eqb c sep); [discriminate|].
  destruct (str_split sep rest); discriminate.
Qed.

Lemma str_split_free sep s :
  free_of sep s = true -> str_split sep s = [s].
Proof.
  induction s as [|c rest IH]; simpl; intros H; [reflexivity|].
  apply andb_true_iff in H as [Hc Hrest].
  apply negb_true_iff in Hc. rewrite Hc, (IH Hrest). reflexivity.
Qed.

Lemma str_split_field sep x rest :
  free_of sep x = true ->
  str_split sep (x ++ String sep rest)%string = x :: str_split sep rest.
Proof.
  induction x as [|c x IH]; simpl; intros H.
  - rewrite Ascii.eqb_refl. reflexivity.
  - apply andb_true_iff in H as [Hc Hx].
    apply negb_true_iff in Hc. rewrite Hc, (IH Hx). reflexivity.
Qed.

(** Splitting undoes joining when no field holds the separator. *)
Lemma str_split_join sep fields :
  fields <> [] ->
  forallb (free_of sep) fields = true ->
  str_split sep (str_join (String sep EmptyString) fields) = fields.
Proof.
  induction fields as [|x rest IH]; intros Hne Hfree; [congruence|].
  simpl in Hfree. apply andb_true_iff in Hfree as [Hx Hrest].
  destruct rest as [|y rest'].
  - simpl. apply str_split_free, Hx.
  - change (str_join (String sep EmptyString) (x :: y :: rest'))
      with (x ++ String sep (str_join (String sep EmptyString) (y :: rest')))%string.
    rewrite (str_split_field _ _ _ Hx), IH; [reflexivity|discriminate|exact Hrest].
Qed.

Lemma lstrip_spaces s :
  forallb isspace (list_ascii_of_string s) = true -> lstrip s = EmptyString.
Proof.
  induction s as [|c rest IH]; simpl; intros H; [reflexivity|].
  apply andb_true_iff in H as [Hc Hrest]. rewrite Hc. auto.
Qed.

Lemma rstrip_empty s :
  rstrip s = EmptyString -> forallb isspace (list_ascii_of_string s) = true.
Proof.
  induction s as [|c rest IH]; simpl; intros H; [reflexivity|].
  destruct (rstrip rest) eqn:Hr; [|discriminate].
  destruct (isspace c); [|discriminate].
  simpl. auto.
Qed.

Lemma lstrip_head s :
  match lstrip s with
  | EmptyString => forallb isspace (list_ascii_of_string s) = true
  | String c _ => isspace c = false
  end.
Proof.
  induction s as [|c rest IH]; simpl; [reflexivity|].
  destruct (isspace c) eqn:Hc; simpl; [exact IH|exact Hc].
Qed.

(** The trimmed text is empty exactly when the text is all whitespace. *)
Lemma strip_empty_iff s :
  strip s = EmptyString <-> forallb isspace (list_ascii_of_string s) = true.
Proof.
  unfold strip. split.
  - intros H. pose proof (lstrip_head s) as Hh.
    destruct (lstrip s) as [|c rest] eqn:Hl; [exact Hh|].
    apply rstrip_empty in H. simpl in H. rewrite Hh in H. discriminate.
  - intros H. rewrite (lstrip_spaces _ H). reflexivity.
Qed.

Lemma range_length n : length (range n) = Z.to_nat n.
Proof. unfold range. rewrite length_map, length_seq. reflexivity. Qed.

(** [str(n)] reads back as [n]. *)
Lemma str_of_int_reads_back n :
  option_map Z.of_int (NilZero.int_of_string (str_of_int n)) = Some n.
Proof.
  unfold str_of_int. rewrite NilZero.isi.
  - simpl. f_equal. apply DecimalZ.of_to.
  - destruct n; simpl; try discriminate.
    intros [= H]. exact (DecimalPos.Unsigned.to_uint_nonnil _ H).
  - destruct n; simpl; try discriminate.
    intros [= H]. exact (DecimalPos.Unsigned.to_uint_nonnil _ H).
Qed.

End PyFacts.

(** ** The Listing Summary Extractor *)

Section Extractor.

Lemma summarize_unfold item :
  summarize item =
  let item_metadata := fields item in
  let num_fields := length item_metadata in
  if (num_fields <? 6)%nat then Ok None
  else
    title_ <-? getitem item_metadata 0 ;;
    category_ <-? getitem item_metadata 1 ;;
    location_ <-? getitem item_metadata 2 ;;
    position_type_ <-? getitem item_metadata 3 ;;
    salary_ <-? (if (num_fields =? 7)%nat then getitem item_metadata 4
                 else Ok "Unknown") ;;
    company_ <-? (if (num_fields =? 7)%nat then getitem item_metadata 5
                  else getitem item_metadata 4) ;;
    date_ <-? (if (num_fields =? 7)%nat then getitem item_metadata 6
               else getitem item_metadata 5) ;;
    Ok (Some {| title := title_; category := category_;
                location := location_; position_type := position_type_;
                salary := salary_; company := company_; date := date_;
                url := href item |}).
Proof. reflexivity. Qed.

Lemma summarize_short item :
  (length (fields item) < 6)%nat -> summarize item = Ok None.
Proof.
  intros H. rewrite summarize_unfold. cbv zeta.
  apply Nat.ltb_lt in H. rewrite H. reflexivity.
Qed.

(** With six fields or more the indices the body reads are all in
    range. *)
Lemma summarize_long item :
  (6 <= length (fields item))%nat -> exists output, yields item output.
Proof.
  intros H. unfold yields. rewrite summarize_unfold. cbv zeta.
  destruct (fields item) as [|f0 [|f1 [|f2 [|f3 [|f4 [|f5 more]]]]]];
    simpl in H; try lia.
  destruct more as [|f6 [|f7 more]]; simpl; eexists; reflexivity.
Qed.

Lemma summarize_total item : exists o, summarize item = Ok o.
Proof.
  destruct (Nat.lt_ge_cases (length (fields item)) 6) as [H|H].
  - exists None. apply summarize_short, H.
  - destruct (summarize_long item H) as [output Hy]. exists (Some output).
    exact Hy.
Qed.

Lemma for_items_acc elements : forall acc,
  for_items elements acc =
  (outputs <-? for_items elements [] ;; Ok (acc ++ outputs)).
Proof.
  induction elements as [|item rest IH]; intros acc; simpl.
  - rewrite app_nil_r. reflexivity.
  - destruct (summarize item) as [[output|]|e]; simpl; try reflexivity.
    + rewrite (IH (acc ++ [output])), (IH [output]).
      destruct (for_items rest []); simpl; [|reflexivity].
      rewrite <- app_assoc. reflexivity.
    + apply IH.
Qed.

Lemma get_search_jobs_cons item rest :
  get_search_jobs (item :: rest) =
  (o <-? summarize item ;;
   outputs <-? get_search_jobs rest ;;
   Ok (match o with Some output => output :: outputs | None => outputs end)).
Proof.
  unfold get_search_jobs. simpl.
  destruct (summarize item) as [[output|]|e]; simpl; try reflexivity.
  - rewrite for_items_acc. reflexivity.
  - destruct (for_items rest []); reflexivity.
Qed.

(** The extractor raises on no input. *)
Lemma get_search_jobs_total elements :
  exists outputs, get_search_jobs elements = Ok outputs.
Proof.
  induction elements as [|item rest [outputs IH]].
  - exists []. reflexivity.
  - rewrite get_search_jobs_cons, IH.
    destruct (summarize_total item) as [o ->]. simpl. eexists. reflexivity.
Qed.

Lemma get_search_jobs_app pre post before after :
  get_search_jobs pre = Ok before ->
  get_search_jobs post = Ok after ->
  get_search_jobs (pre ++ post) = Ok (before ++ after).
Proof.
  revert before. induction pre as [|item pre IH]; intros before Hpre Hpost.
  - injection Hpre as <-. exact Hpost.
  - simpl. rewrite get_search_jobs_cons in *.
    destruct (summarize item) as [o|e]; simpl in *; [|discriminate].
    destruct (get_search_jobs pre) as [outs|e]; simpl in *; [|discriminate].
    rewrite (IH outs eq_refl Hpost). simpl.
    injection Hpre as <-. destruct o; reflexivity.
Qed.

(** The records come out in the order of the listings that have six
    fields or more, one record for each. *)
Lemma get_search_jobs_order elements :
  exists outputs,
    get_search_jobs elements = Ok outputs /\
    Forall2 yields (filter has_six_fields elements) outputs.
Proof.
  induction elements as [|item rest [outputs [IH HF]]].
  - exists []. split; [reflexivity|constructor].
  - rewrite get_search_jobs_cons, IH. simpl. unfold has_six_fields.
    destruct (Nat.leb_spec 6 (length (fields item))) as [H|H].
    + destruct (summarize_long item H) as [output Hy].
      exists (output :: outputs). rewrite Hy. simpl.
      split; [reflexivity|constructor; assumption].
    + rewrite (summarize_short item H). simpl.
      exists outputs. split; [reflexivity|assumption].
Qed.

(** Where a listing stands in the input, its record, if it has one,
    stands in the output. *)
Lemma get_search_jobs_at pre item post o :
  summarize item = Ok o ->
  exists before after,
    get_search_jobs pre = Ok before /\
    get_search_jobs post = Ok after /\
    get_search_jobs (pre ++ item :: post) =
    Ok (before ++ match o with
                  | Some output => output :: after
                  | None => after
                  end).
Proof.
  intros Hs.
  destruct (get_search_jobs_total pre) as [before Hpre].
  destruct (get_search_jobs_total post) as [after Hpost].
  exists before, after. split; [exact Hpre|]. split; [exact Hpost|].
  apply get_search_jobs_app; [exact Hpre|].
  rewrite get_search_jobs_cons, Hs, Hpost. reflexivity.
Qed.

End Extractor.

Section ExtractorClaims.

Import Scripted.

(** The scenario of the specification: two listings kept, the
    malformed one dropped. *)
Example three_listings :
  get_search_jobs [backend; analyst; malformed] =
  Ok [backend_summary; analyst_summary].
Proof. reflexivity. Qed.

Lemma yields_url item output : yields item output -> url output = href item.
Proof.
  unfold yields. rewrite summarize_unfold. cbv zeta.
  destruct (fields item) as [|f0 [|f1 [|f2 [|f3 [|f4 [|f5 more]]]]]];
    simpl; try discriminate.
  destruct more as [|f6 [|f7 more]]; simpl; intros [= <-]; reflexivity.
Qed.

Lemma yields_urls items outputs :
  Forall2 yields items outputs -> map url outputs = map href items.
Proof.
  induction 1 as [|item output items outputs Hy _ IH]; simpl.
  - reflexivity.
  - rewrite (yields_url _ _ Hy), IH. reflexivity.
Qed.

(** C1. A listing whose text splits on line breaks into exactly seven
    fields yields, at its place in the output, the record whose title,
    category, location, position_type, salary, company and date are
    those fields in that order. *)
Theorem seven_fields_layout pre item post f1 f2 f3 f4 f5 f6 f7 :
  fields item = [f1; f2; f3; f4; f5; f6; f7] ->
  exists before after,
    get_search_jobs pre = Ok before /\
    get_search_jobs post = Ok after /\
    get_search_jobs (pre ++ item :: post) =
    Ok (before ++
        {| title := f1; category := f2; location := f3;
           position_type := f4; salary := f5; company := f6; date := f7;
           url := href item |} :: after).
Proof.
  intros Hf.
  apply (get_search_jobs_at pre item post (Some _)).
  rewrite summarize_unfold, Hf. reflexivity.
Qed.

Lemma seven_fields_layout_witness :
  fields backend =
    ["Backend Engineer"; "Engineering"; "Remote/UK"; "Full-time";
     "$80k-$100k"; "Acme Co"; "2024-01-01"] /\
  exists before after,
    get_search_jobs [malformed] = Ok before /\
    get_search_jobs [analyst] = Ok after /\
    get_search_jobs ([malformed] ++ backend :: [analyst]) =
    Ok (before ++
        {| title := "Backend Engineer"; category := "Engineering";
           location := "Remote/UK"; position_type := "Full-time";
           salary := "$80k-$100k"; company := "Acme Co";
           date := "2024-01-01"; url := href backend |} :: after).
Proof.
  split; [reflexivity|].
  apply (seven_fields_layout [malformed] backend [analyst]). reflexivity.
Defined.

(** C2. A listing whose text splits into exactly six fields yields the
    record whose salary is "Unknown" and whose title, category,
    location, position_type, company and date are the six fields in that
    order. *)
Theorem six_fields_layout pre item post f1 f2 f3 f4 f5 f6 :
  fields item = [f1; f2; f3; f4; f5; f6] ->
  exists before after,
    get_search_jobs pre = Ok before /\
    get_search_jobs post = Ok after /\
    get_search_jobs (pre ++ item :: post) =
    Ok (before ++
        {| title := f1; category := f2; location := f3;
           position_type := f4; salary := "Unknown"; company := f5;
           date := f6; url := href item |} :: after).
Proof.
  intros Hf.
  apply (get_search_jobs_at pre item post (Some _)).
  rewrite summarize_unfold, Hf. reflexivity.
Qed.

Lemma six_fields_layout_witness :
  fields analyst =
    ["Data Analyst"; "Data"; "Remote/USA"; "Contract"; "BetaCorp";
     "2024-01-02"] /\
  exists before after,
    get_search_jobs [backend] = Ok before /\
    get_search_jobs [malformed] = Ok after /\
    get_search_jobs ([backend] ++ analyst :: [malformed]) =
    Ok (before ++
        {| title := "Data Analyst"; category := "Data";
           location := "Remote/USA"; position_type := "Contract";
           salary := "Unknown"; company := "BetaCorp";
           date := "2024-01-02"; url := href analyst |} :: after).
Proof.
  split; [reflexivity|].
  apply (six_fields_layout [backend] analyst [malformed]). reflexivity.
Defined.

(** C3. A listing whose text splits into fewer than six fields yields no
    record and raises nothing: the extractor returns, and its output is
    the output for the listings before it followed by the output for
    the listings after it.  The records stand in the order of the
    listings that were kept, one for each. *)
Theorem short_listing_is_skipped pre item post :
  (length (fields item) < 6)%nat ->
  exists before after,
    get_search_jobs pre = Ok before /\
    get_search_jobs post = Ok after /\
    get_search_jobs (pre ++ item :: post) = Ok (before ++ after) /\
    get_search_jobs (pre ++ item :: post) = get_search_jobs (pre ++ post) /\
    Forall2 yields (filter has_six_fields (pre ++ item :: post))
      (before ++ after).
Proof.
  intros Hshort.
  destruct (get_search_jobs_at pre item post None (summarize_short _ Hshort))
    as (before & after & Hpre & Hpost & Hall).
  exists before, after. repeat split; try assumption.
  - rewrite Hall. symmetry. apply get_search_jobs_app; assumption.
  - destruct (get_search_jobs_order (pre ++ item :: post))
      as (outputs & Hout & HF).
    rewrite Hall in Hout. injection Hout as <-. exact HF.
Qed.

Lemma short_listing_is_skipped_witness :
  (length (fields malformed) < 6)%nat /\
  exists before after,
    get_search_jobs [backend; analyst] = Ok before /\
    get_search_jobs [featured] = Ok after /\
    get_search_jobs ([backend; analyst] ++ malformed :: [featured]) =
    Ok (before ++ after) /\
    get_search_jobs ([backend; analyst] ++ malformed :: [featured]) =
    get_search_jobs ([backend; analyst] ++ [featured]) /\
    Forall2 yields
      (filter has_six_fields ([backend; analyst] ++ malformed :: [featured]))
      (before ++ after).
Proof.
  split; [vm_compute; lia|].
  apply (short_listing_is_skipped [backend; analyst] malformed [featured]).
  vm_compute. lia.
Defined.

(** C10. A listing whose text splits into eight fields or more is kept
    and read by the six-field layout: salary is "Unknown", company is
    the fifth field, date the sixth, and the fields after the sixth are
    left out. *)
Theorem eight_fields_layout pre item post f1 f2 f3 f4 f5 f6 f7 f8 more :
  fields item = f1 :: f2 :: f3 :: f4 :: f5 :: f6 :: f7 :: f8 :: more ->
  exists before after,
    get_search_jobs pre = Ok before /\
    get_search_jobs post = Ok after /\
    get_search_jobs (pre ++ item :: post) =
    Ok (before ++
        {| title := f1; category := f2; location := f3;
           position_type := f4; salary := "Unknown"; company := f5;
           date := f6; url := href item |} :: after).
Proof.
  intros Hf.
  apply (get_search_jobs_at pre item post (Some _)).
  rewrite summarize_unfold, Hf. reflexivity.
Qed.

Lemma eight_fields_layout_witness :
  fields featured =
    ["ML Engineer"; "Engineering"; "Remote"; "Full-time"; "Gamma";
     "2024-01-03"; "Featured"; "New"] /\
  exists before after,
    get_search_jobs [backend] = Ok before /\
    get_search_jobs [analyst] = Ok after /\
    get_search_jobs ([backend] ++ featured :: [analyst]) =
    Ok (before ++
        {| title := "ML Engineer"; category := "Engineering";
           location := "Remote"; position_type := "Full-time";
           salary := "Unknown"; company := "Gamma";
           date := "2024-01-03"; url := href featured |} :: after).
Proof.
  split; [reflexivity|].
  apply (eight_fields_layout [backend] featured [analyst]
           _ _ _ _ _ _ "Featured" "New" []).
  reflexivity.
Defined.

(** C9, as the specification has it, fails: an anchor of the listing
    class without a link target yields a record whose url is [None],
    and one with an empty link target a record whose url is empty. *)
Lemma unlinked_listing_has_no_url :
  exists output output',
    get_search_jobs [unlinked; blank_link] = Ok [output; output'] /\
    ~ url_nonempty output /\ ~ url_nonempty output'.
Proof.
  do 2 eexists. split; [reflexivity|].
  split; intros [u [Hu Hne]]; [discriminate Hu|].
  injection Hu as <-. apply Hne. reflexivity.
Qed.

(** C9, amended. The url of every record is the link target attribute
    of its listing, as read from the element and not from its text; it
    is a non-empty string whenever the listings carry a non-empty link
    target. *)
Theorem url_is_link_target elements outputs :
  get_search_jobs elements = Ok outputs ->
  map url outputs = map href (filter has_six_fields elements) /\
  ((forall item, In item elements -> linked item) ->
   forall output, In output outputs -> url_nonempty output).
Proof.
  intros Hrun.
  destruct (get_search_jobs_order elements) as (outputs' & Hrun' & HF).
  rewrite Hrun in Hrun'. injection Hrun' as <-.
  pose proof (yields_urls _ _ HF) as Hurls.
  split; [exact Hurls|].
  intros Hlinked output Hin.
  apply (in_map url) in Hin. rewrite Hurls in Hin.
  apply in_map_iff in Hin as (item & Hhref & Hitem).
  apply filter_In in Hitem as [Hitem _].
  destruct (Hlinked item Hitem) as (u & Hu & Hne).
  exists u. split; [congruence|exact Hne].
Qed.

Lemma url_is_link_target_witness :
  get_search_jobs [backend; malformed; analyst] =
    Ok [backend_summary; analyst_summary] /\
  map url [backend_summary; analyst_summary] =
    map href (filter has_six_fields [backend; malformed; analyst]) /\
  (forall output,
     In output [backend_summary; analyst_summary] -> url_nonempty output).
Proof.
  split; [reflexivity|].
  destruct (url_is_link_target [backend; malformed; analyst]
              [backend_summary; analyst_summary] eq_refl) as [Hurls Hne].
  split; [exact Hurls|].
  apply Hne.
  intros item [<-|[<-|[<-|[]]]]; eexists; (split; [reflexivity|discriminate]).
Defined.

End ExtractorClaims.

(** ** The Search URL Builder *)

Section UrlBuilder.

Lemma free_of_app sep a b :
  free_of sep (a ++ b) = free_of sep a && free_of sep b.
Proof.
  induction a as [|c a IH]; simpl; [reflexivity|].
  rewrite IH, andb_assoc. reflexivity.
Qed.

Lemma free_of_join sep glue tokens :
  free_of sep glue = true ->
  forallb (free_of sep) tokens = true ->
  free_of sep (str_join glue tokens) = true.
Proof.
  intros Hglue. induction tokens as [|x rest IH]; intros H; [reflexivity|].
  simpl in H. apply andb_true_iff in H as [Hx Hrest].
  destruct rest as [|y rest']; [exact Hx|].
  change (str_join glue (x :: y :: rest'))
    with (x ++ glue ++ str_join glue (y :: rest'))%string.
  rewrite !free_of_app, Hx, Hglue, (IH Hrest). reflexivity.
Qed.

(** The decimal rendering of a number holds digits only. *)
Lemma free_of_digits sep d :
  (N_of_ascii sep < 48)%N \/ (57 < N_of_ascii sep)%N ->
  free_of sep (NilEmpty.string_of_uint d) = true.
Proof.
  intros Hsep.
  assert (Hd : forall c : ascii,
             (48 <= N_of_ascii c <= 57)%N -> Ascii.eqb c sep = false).
  { intros c Hc. apply Ascii.eqb_neq. intros ->. lia. }
  induction d; cbn [NilEmpty.string_of_uint free_of]; [reflexivity|..];
    rewrite IHd, andb_true_r; apply negb_true_iff, Hd; simpl; lia.
Qed.

Lemma free_of_str_of_int sep n :
  (N_of_ascii sep < 45)%N \/ (57 < N_of_ascii sep)%N ->
  free_of sep (str_of_int n) = true.
Proof.
  intros Hsep.
  assert (Hdig : forall d, free_of sep (NilZero.string_of_uint d) = true).
  { intros d. destruct d; try (apply free_of_digits; lia).
    cbn [NilZero.string_of_uint free_of].
    rewrite andb_true_r. apply negb_true_iff, Ascii.eqb_neq.
    intros <-. simpl in Hsep. lia. }
  unfold str_of_int.
  destruct (Z.to_int n) as [d|d]; cbn [NilZero.string_of_int free_of].
  - apply Hdig.
  - rewrite Hdig, andb_true_r. apply negb_true_iff, Ascii.eqb_neq.
    intros <-. simpl in Hsep. lia.
Qed.

Lemma make_url_shape countries tags posted_since :
  make_url countries tags posted_since =
  ("https://www.workingnomads.com/jobs"
   ++ String "?" ("tag=" ++ str_join "," tags
   ++ String "&" ("location=" ++ str_join "," countries
   ++ String "&" ("postedDate=" ++ str_of_int posted_since))))%string.
Proof. reflexivity. Qed.

Lemma forallb_app_l {A} (p : A -> bool) l1 l2 :
  forallb p (l1 ++ l2) = true -> forallb p l1 = true /\ forallb p l2 = true.
Proof. rewrite forallb_app. apply andb_true_iff. Qed.

Lemma str_app_assoc (a b c : string) :
  (a ++ (b ++ c) = (a ++ b) ++ c)%string.
Proof. induction a as [|x a IH]; simpl; [reflexivity|]. rewrite IH. reflexivity. Qed.

Lemma free_of_param sep key value rest :
  free_of sep key = true -> free_of sep value = true ->
  free_of sep rest = true ->
  free_of sep (key ++ value ++ rest) = true.
Proof. intros Hk Hv Hr. rewrite !free_of_app, Hk, Hv, Hr. reflexivity. Qed.

Lemma make_url_query_of countries tags posted_since :
  forallb (free_of "?") (countries ++ tags) = true ->
  forallb (free_of "&") (countries ++ tags) = true ->
  query_of (make_url countries tags posted_since) =
  [("tag=" ++ str_join "," tags)%string;
   ("location=" ++ str_join "," countries)%string;
   ("postedDate=" ++ str_of_int posted_since)%string].
Proof.
  intros Hq Ha.
  apply forallb_app_l in Hq as [Hqc Hqt].
  apply forallb_app_l in Ha as [Hac Hat].
  pose proof (free_of_join "?" "," tags eq_refl Hqt) as Hqt'.
  pose proof (free_of_join "?" "," countries eq_refl Hqc) as Hqc'.
  pose proof (free_of_join "&" "," tags eq_refl Hat) as Hat'.
  pose proof (free_of_join "&" "," countries eq_refl Hac) as Hac'.
  assert (Hqd : free_of "?" (str_of_int posted_since) = true)
    by (apply free_of_str_of_int; simpl; lia).
  assert (Had : free_of "&" (str_of_int posted_since) = true)
    by (apply free_of_str_of_int; simpl; lia).
  rewrite make_url_shape. unfold query_of.
  rewrite PyFacts.str_split_field by reflexivity.
  rewrite PyFacts.str_split_free.
  - rewrite (str_app_assoc "tag=").
    rewrite (PyFacts.str_split_field "&" ("tag=" ++ str_join "," tags)).
    + rewrite (str_app_assoc "location=").
      rewrite (PyFacts.str_split_field "&"
                 ("location=" ++ str_join "," countries)).
      * rewrite PyFacts.str_split_free; [reflexivity|].
        rewrite free_of_app, Had. reflexivity.
      * rewrite free_of_app, Hac'. reflexivity.
    + rewrite free_of_app, Hat'. reflexivity.
  - apply free_of_param; [reflexivity|assumption|].
    cbn [free_of]. rewrite andb_true_iff. split; [reflexivity|].
    apply free_of_param; [reflexivity|assumption|].
    cbn [free_of]. rewrite andb_true_iff. split; [reflexivity|].
    rewrite free_of_app, Hqd. reflexivity.
Qed.





End UrlBuilder.

(** ** The Listing Detail Fetcher *)

Section DetailFetcher.

Context {World Duration : Type} (driver : Browser World Duration).

Lemma tag_texts_acc elements : forall acc,
  tag_texts elements acc = acc ++ map text (filter labelled elements).
Proof.
  induction elements as [|e rest IH]; intros acc; simpl.
  - rewrite app_nil_r. reflexivity.
  - unfold labelled at 1.
    destruct (negb (strip (text e) =? EmptyString)%string); simpl.
    + rewrite IH, <- app_assoc. reflexivity.
    + apply IH.
Qed.

(** The comprehension keeps the texts of the labelled tags, in order. *)
Lemma tag_texts_filter elements :
  tag_texts elements [] = map text (filter labelled elements).
Proof. apply tag_texts_acc. Qed.

Lemma labelled_iff e : labelled e = true <-> strip (text e) <> EmptyString.
Proof.
  unfold labelled. rewrite negb_true_iff.
  destruct (String.eqb_spec (strip (text e)) EmptyString) as [H|H];
    split; congruence.
Qed.

(** C7. When the page is fetched and the lookup of the description
    block raises, as it does with NoSuchElementException when the block
    is absent, [get_job_data] raises that exception to its caller: it
    returns no record, supplies no description of its own and makes no
    further call on the page. *)
Theorem missing_description_fails url_ w w1 e w2 log :
  driver_get driver url_ w = (Ok tt, w1) ->
  find_element driver CLASS_NAME "job-detail" w1 = (Raise e, w2) ->
  get_job_data driver url_ (w, log) =
  (Raise e,
   (w2, log ++ [(CallGet url_, None);
                (CallFindElement CLASS_NAME "job-detail", Some e)])).
Proof.
  intros Hget Hfind.
  unfold get_job_data, bind, call. simpl.
  rewrite Hget. simpl. rewrite Hfind. simpl.
  rewrite <- app_assoc. reflexivity.
Qed.

(** C8. On a page whose description block is found, the keywords are
    the texts of the tag elements whose trimmed text is not empty, in
    the order of the page and with repetitions kept; the elements left
    out are exactly those whose trimmed text is empty. *)
Theorem keywords_are_labelled_tags url_ w w1 detail w2 tags w3 log :
  driver_get driver url_ w = (Ok tt, w1) ->
  find_element driver CLASS_NAME "job-detail" w1 = (Ok detail, w2) ->
  find_elements driver CLASS_NAME "tag" w2 = (Ok tags, w3) ->
  get_job_data driver url_ (w, log) =
  (Ok {| detail_url := url_; description := text detail;
         keywords := map text (filter labelled tags) |},
   (w3, log ++ [(CallGet url_, None);
                (CallFindElement CLASS_NAME "job-detail", None);
                (CallFindElements CLASS_NAME "tag", None)])) /\
  (forall e, In e tags ->
     (In e (filter labelled tags) <-> strip (text e) <> EmptyString)).
Proof.
  intros Hget Hfind Htags. split.
  - unfold get_job_data, bind, call, ret. simpl.
    rewrite Hget. simpl. rewrite Hfind. simpl. rewrite Htags. simpl.
    rewrite tag_texts_filter, <- !app_assoc. reflexivity.
  - intros e Hin. rewrite filter_In, labelled_iff. tauto.
Qed.

End DetailFetcher.

Lemma missing_description_fails_witness :
  driver_get Scripted.browser "u" Scripted.bare = (Ok tt, Scripted.bare) /\
  find_element Scripted.browser CLASS_NAME "job-detail" Scripted.bare =
    (Raise NoSuchElementException, Scripted.bare) /\
  get_job_data Scripted.browser "u" (Scripted.bare, []) =
  (Raise NoSuchElementException,
   (Scripted.bare,
    [(CallGet "u", None);
     (CallFindElement CLASS_NAME "job-detail",
      Some NoSuchElementException)])).
Proof.
  split; [reflexivity|]. split; [reflexivity|].
  apply (missing_description_fails Scripted.browser "u" Scripted.bare
           Scripted.bare NoSuchElementException Scripted.bare []);
    reflexivity.
Defined.

Lemma keywords_are_labelled_tags_witness :
  find_elements Scripted.browser CLASS_NAME "tag" Scripted.posting =
    (Ok [Scripted.tag "python"; Scripted.tag "  "; Scripted.tag "sql";
         Scripted.tag EmptyString; Scripted.tag "python"], Scripted.posting) /\
  fst (get_job_data Scripted.browser "u" (Scripted.posting, [])) =
    Ok {| detail_url := "u"; description := "We are hiring.";
          keywords := ["python"; "sql"; "python"] |}.
Proof.
  split; [reflexivity|].
  destruct (keywords_are_labelled_tags Scripted.browser "u" Scripted.posting
              Scripted.posting (Scripted.tag "We are hiring.")
              Scripted.posting _ Scripted.posting []
              eq_refl eq_refl eq_refl) as [Hrun _].
  rewrite Hrun. reflexivity.
Defined.

(** ** The Pagination Loader *)

Section Loader.

Context {World Duration : Type} (driver : Browser World Duration).

Abbreviation wait_call := (CallUntilClickable 5 CLASS_NAME show_more_class).

Lemma count_app p (l1 l2 : list Entry) :
  count p (l1 ++ l2) = (count p l1 + count p l2)%nat.
Proof. unfold count. rewrite filter_app, length_app. reflexivity. Qed.

Lemma call_run {A} c (op : World -> result A * World) w log :
  call c op (w, log) =
  (fst (op w), (snd (op w), log ++ [(c, exn_of (fst (op w)))])).
Proof. unfold call. simpl. destruct (op w). reflexivity. Qed.

Ltac run_round :=
  unfold expand, try_except, bind, print, ret, call; simpl;
  repeat match goal with
  | H : ?op = (_, _) |- context [?op] => rewrite H; simpl
  end;
  rewrite <- ?app_assoc; simpl.

(** A round without a fault asks for the next one. *)
Lemma expand_next m1 m2 t w el w1 w2 w3 log :
  until_clickable driver 5 CLASS_NAME show_more_class w = (Ok el, w1) ->
  click driver el w1 = (Ok tt, w2) ->
  sleep driver t w2 = (Ok tt, w3) ->
  expand driver m1 m2 t (w, log) =
  (Ok Next,
   (w3, log ++ [(wait_call, None); (CallClick el, None);
                (CallPrint m1, None); (CallSleep, None)])).
Proof. intros Hw Hc Hs. run_round. reflexivity. Qed.

(** A round with a fault, in the wait, the click or the sleep, breaks
    the loop and raises nothing. *)
Lemma expand_break m1 m2 t w e w' log :
  round_fault driver t w e w' ->
  exists entries,
    expand driver m1 m2 t (w, log) = (Ok Break, (w', log ++ entries)) /\
    count is_wait entries = 1%nat /\
    (count is_click entries <= 1)%nat /\
    (unavailable driver w e w' -> count is_click entries = 0%nat).
Proof.
  intros [Hw | el w1 Hw Hc | el w1 w2 Hw Hc Hs].
  - exists [(wait_call, Some e); (CallPrint m2, None)].
    unfold unavailable in Hw. run_round. unfold count. simpl. auto.
  - exists [(wait_call, None); (CallClick el, Some e); (CallPrint m2, None)].
    run_round. unfold count. simpl. repeat split; auto.
    unfold unavailable. rewrite Hw. discriminate.
  - exists [(wait_call, None); (CallClick el, None); (CallPrint m1, None);
            (CallSleep, Some e); (CallPrint m2, None)].
    run_round. unfold count. simpl. repeat split; auto.
    unfold unavailable. rewrite Hw. discriminate.
Qed.

(** Whatever the session does, a round either goes through or meets a
    fault. *)
Lemma round_cases t w :
  (exists el w1 w2 w3,
     until_clickable driver 5 CLASS_NAME show_more_class w = (Ok el, w1) /\
     click driver el w1 = (Ok tt, w2) /\
     sleep driver t w2 = (Ok tt, w3)) \/
  (exists e w', round_fault driver t w e w').
Proof.
  destruct (until_clickable driver 5 CLASS_NAME show_more_class w)
    as [[el|e] w1] eqn:Hw.
  - destruct (click driver el w1) as [[[]|e] w2] eqn:Hc.
    + destruct (sleep driver t w2) as [[[]|e] w3] eqn:Hs.
      * left. exists el, w1, w2, w3. auto.
      * right. exists e, w3. eapply fault_in_sleep; eassumption.
    + right. exists e, w2. eapply fault_in_click; eassumption.
  - right. exists e, w1. apply fault_in_wait. exact Hw.
Qed.

(** A round raises nothing, waits once and clicks at most once. *)
Lemma expand_cases m1 m2 t w log :
  exists fl w' entries,
    expand driver m1 m2 t (w, log) = (Ok fl, (w', log ++ entries)) /\
    count is_wait entries = 1%nat /\
    (count is_click entries <= 1)%nat.
Proof.
  destruct (round_cases t w) as [(el & w1 & w2 & w3 & Hw & Hc & Hs)|(e & w' & Hf)].
  - exists Next, w3. eexists. split.
    + apply (expand_next m1 m2 t w el w1 w2 w3 log Hw Hc Hs).
    + unfold count. simpl. auto.
  - destruct (expand_break m1 m2 t w e w' log Hf) as (entries & He & Hn & Hc & _).
    exists Break, w', entries. auto.
Qed.

(** *** The two loops *)

Lemma while_true_no_raise fuel m1 m2 t : forall w log r s,
  while_true fuel (expand driver m1 m2 t) (w, log) = Some (r, s) ->
  r = Ok tt /\ exists entries, snd s = log ++ entries.
Proof.
  induction fuel as [|fuel IH]; intros w log r s; simpl; [discriminate|].
  destruct (expand_cases m1 m2 t w log) as (fl & w' & entries & He & _).
  rewrite He. destruct fl.
  - intros Hrun. destruct (IH _ _ _ _ Hrun) as [Hr [more Hs]].
    split; [exact Hr|]. exists (entries ++ more).
    rewrite Hs, app_assoc. reflexivity.
  - intros [= <- <-]. split; [reflexivity|]. exists entries. reflexivity.
Qed.

(** The exhaustive loop ends at the first round that meets a fault. *)
Lemma while_true_break m1 m2 t k w w1 :
  expands driver t k w w1 ->
  forall e w2 fuel log,
    round_fault driver t w1 e w2 ->
    (k < fuel)%nat ->
    exists entries,
      while_true fuel (expand driver m1 m2 t) (w, log) =
      Some (Ok tt, (w2, log ++ entries)).
Proof.
  induction 1 as [w|k w el wa wb wc w1 Hw Hc Hs _ IH];
    intros e w2 fuel log Hf Hk;
    (destruct fuel as [|fuel]; [lia|]); simpl.
  - destruct (expand_break m1 m2 t w e w2 log Hf) as (entries & He & _).
    rewrite He. exists entries. reflexivity.
  - rewrite (expand_next m1 m2 t w el wa wb wc log Hw Hc Hs).
    destruct (IH e w2 fuel
                (log ++ [(wait_call, None); (CallClick el, None);
                         (CallPrint m1, None); (CallSleep, None)])
                Hf ltac:(lia)) as (entries & Hrun).
    rewrite Hrun, <- app_assoc. eexists. reflexivity.
Qed.

(** The bounded loop raises nothing and makes at most one round for
    each value it ranges over. *)
Lemma for_each_bound {I} (m1 : I -> string) m2 t (values : list I) :
  forall w log,
  exists w' entries,
    for_each (fun i => expand driver (m1 i) m2 t) values (w, log) =
    (Ok tt, (w', log ++ entries)) /\
    (count is_wait entries <= length values)%nat /\
    (count is_click entries <= length values)%nat.
Proof.
  induction values as [|i rest IH]; intros w log; simpl.
  - exists w, []. rewrite app_nil_r. unfold ret, count. simpl. auto.
  - destruct (expand_cases (m1 i) m2 t w log)
      as (fl & w' & entries & He & Hn & Hc).
    rewrite He. destruct fl.
    + destruct (IH w' (log ++ entries)) as (w'' & more & Hrun & Hn' & Hc').
      exists w'', (entries ++ more). rewrite Hrun, app_assoc, !count_app.
      split; [reflexivity|]. lia.
    + exists w', entries. split; [reflexivity|]. lia.
Qed.

(** The bounded loop ends early at the first round that meets a fault. *)
Lemma for_each_break {I} (m1 : I -> string) m2 t k w w1 :
  expands driver t k w w1 ->
  forall e w2 (values : list I) log,
    round_fault driver t w1 e w2 ->
    (k < length values)%nat ->
    exists entries,
      for_each (fun i => expand driver (m1 i) m2 t) values (w, log) =
      (Ok tt, (w2, log ++ entries)) /\
      count is_wait entries = S k /\
      (unavailable driver w1 e w2 -> count is_click entries = k).
Proof.
  induction 1 as [w|k w el wa wb wc w1 Hw Hc Hs _ IH];
    intros e w2 values log Hf Hk;
    (destruct values as [|i rest]; [simpl in Hk; lia|]); simpl.
  - destruct (expand_break (m1 i) m2 t w e w2 log Hf)
      as (entries & He & Hn & _ & Hu).
    rewrite He. exists entries. auto.
  - rewrite (expand_next (m1 i) m2 t w el wa wb wc log Hw Hc Hs).
    destruct (IH e w2 rest
                (log ++ [(wait_call, None); (CallClick el, None);
                         (CallPrint (m1 i), None); (CallSleep, None)])
                Hf ltac:(simpl in Hk; lia)) as (entries & Hrun & Hn & Hu).
    rewrite Hrun, <- app_assoc. eexists. split; [reflexivity|].
    rewrite !count_app, Hn. split; [reflexivity|].
    intros Hun. rewrite (Hu Hun). reflexivity.
Qed.

(** The bounded loop goes through all its rounds when none meets a
    fault. *)
Lemma for_each_all {I} (m1 : I -> string) m2 t (values : list I) :
  forall w w1 log,
    expands driver t (length values) w w1 ->
    exists entries,
      for_each (fun i => expand driver (m1 i) m2 t) values (w, log) =
      (Ok tt, (w1, log ++ entries)) /\
      count is_wait entries = length values /\
      count is_click entries = length values.
Proof.
  induction values as [|i rest IH]; intros w w1 log Hex; simpl in *.
  - inversion Hex; subst. exists []. rewrite app_nil_r. auto.
  - inversion Hex as [|k w0 el wa wb wc w1' Hw Hc Hs Hrest]; subst.
    rewrite (expand_next (m1 i) m2 t w el wa wb wc log Hw Hc Hs).
    destruct (IH wc w1
                (log ++ [(wait_call, None); (CallClick el, None);
                         (CallPrint (m1 i), None); (CallSleep, None)])
                Hrest) as (entries & Hrun & Hn & Hcl).
    rewrite Hrun, <- app_assoc. eexists. split; [reflexivity|].
    rewrite !count_app, Hn, Hcl. auto.
Qed.

(** *** [load_elements] *)

Abbreviation collect_call := (CallFindElements XPATH job_card_xpath).

Lemma load_navigation_fault fuel url_ full_load clicks t w e w0 log :
  driver_get driver url_ w = (Raise e, w0) ->
  load_elements driver fuel url_ full_load clicks t (w, log) =
  Some (Raise e, (w0, log ++ [(CallGet url_, Some e)])).
Proof.
  intros Hget. unfold load_elements, call. simpl. rewrite Hget. reflexivity.
Qed.

Lemma load_after_loop fuel url_ (full_load : bool) clicks t w w0 log w1 log1 :
  driver_get driver url_ w = (Ok tt, w0) ->
  (if full_load
   then while_true fuel (expand_full driver t)
          (w0, log ++ [(CallGet url_, None)])
   else Some (for_each (expand_bounded driver clicks t) (range clicks)
                (w0, log ++ [(CallGet url_, None)]))) =
  Some (Ok tt, (w1, log1)) ->
  load_elements driver fuel url_ full_load clicks t (w, log) =
  Some (fst (collect driver w1),
        (snd (collect driver w1),
         log1 ++ [(collect_call, exn_of (fst (collect driver w1)))])).
Proof.
  intros Hget Hloop. unfold load_elements.
  rewrite call_run, Hget. cbn [fst snd exn_of]. cbv zeta.
  destruct full_load.
  - rewrite Hloop, call_run. reflexivity.
  - injection Hloop as Hloop. rewrite Hloop, call_run. reflexivity.
Qed.

Ltac count_log :=
  rewrite ?count_app; unfold count in *; simpl; try lia.

(** C5. In bounded mode with click bound [clicks], [load_elements]
    always returns or raises after at most [clicks] rounds: it waits for
    the control at most [clicks] times and clicks it at most [clicks]
    times (never, when [clicks] is not positive).  When the control
    becomes unavailable after [k < clicks] rounds the loop ends there,
    with [k] clicks made, and when all [clicks] rounds go through it
    ends after them; either way the run yields what the collection of
    the listing cards gives on the page as the loop left it. *)
Theorem bounded_load_clicks fuel url_ clicks t w :
  (exists r w' log,
     load_elements driver fuel url_ false clicks t (w, []) =
     Some (r, (w', log)) /\
     (count is_wait log <= Z.to_nat clicks)%nat /\
     (count is_click log <= Z.to_nat clicks)%nat) /\
  (forall w0 k w1 e w2,
     driver_get driver url_ w = (Ok tt, w0) ->
     expands driver t k w0 w1 ->
     (Z.of_nat k < clicks)%Z ->
     unavailable driver w1 e w2 ->
     exists log,
       load_elements driver fuel url_ false clicks t (w, []) =
       Some (fst (collect driver w2), (snd (collect driver w2), log)) /\
       count is_wait log = S k /\
       count is_click log = k) /\
  (forall w0 w1,
     driver_get driver url_ w = (Ok tt, w0) ->
     expands driver t (Z.to_nat clicks) w0 w1 ->
     exists log,
       load_elements driver fuel url_ false clicks t (w, []) =
       Some (fst (collect driver w1), (snd (collect driver w1), log)) /\
       count is_wait log = Z.to_nat clicks /\
       count is_click log = Z.to_nat clicks).
Proof.
  split; [|split].
  - destruct (driver_get driver url_ w) as [[[]|e] w0] eqn:Hget.
    + destruct (for_each_bound
                  (fun i => "Clicked 'Show More' (" ++ str_of_int (i + 1)
                            ++ "/" ++ str_of_int clicks ++ ")")%string
                  "No more 'Show More' button found before reaching the target clicks"
                  t (range clicks) w0 ([] ++ [(CallGet url_, None)]))
        as (w' & entries & Hrun & Hn & Hc).
      rewrite PyFacts.range_length in Hn, Hc.
      do 3 eexists. split.
      * eapply (load_after_loop fuel url_ false clicks t w w0 [] w' _ Hget).
        f_equal. exact Hrun.
      * split; count_log.
    + do 3 eexists. split.
      * apply (load_navigation_fault fuel url_ false clicks t w e w0 [] Hget).
      * split; count_log.
  - intros w0 k w1 e w2 Hget Hex Hk Hun.
    destruct (for_each_break
                (fun i => "Clicked 'Show More' (" ++ str_of_int (i + 1)
                          ++ "/" ++ str_of_int clicks ++ ")")%string
                "No more 'Show More' button found before reaching the target clicks"
                t k w0 w1 Hex e w2 (range clicks)
                ([] ++ [(CallGet url_, None)]))
      as (entries & Hrun & Hn & Hc).
    { apply fault_in_wait, Hun. }
    { rewrite PyFacts.range_length. lia. }
    specialize (Hc Hun).
    eexists. split.
    + eapply (load_after_loop fuel url_ false clicks t w w0 [] w2 _ Hget).
      f_equal. exact Hrun.
    + split; count_log.
  - intros w0 w1 Hget Hex.
    rewrite <- PyFacts.range_length in Hex.
    destruct (for_each_all
                (fun i => "Clicked 'Show More' (" ++ str_of_int (i + 1)
                          ++ "/" ++ str_of_int clicks ++ ")")%string
                "No more 'Show More' button found before reaching the target clicks"
                t (range clicks) w0 w1 ([] ++ [(CallGet url_, None)]) Hex)
      as (entries & Hrun & Hn & Hc).
    rewrite PyFacts.range_length in Hn, Hc.
    eexists. split.
    + eapply (load_after_loop fuel url_ false clicks t w w0 [] w1 _ Hget).
      f_equal. exact Hrun.
    + split; count_log.
Qed.

(** C4, amended. In either mode a fault raised inside a round of the
    expand loop, by the wait for the control (the control is not found
    clickable within the timeout), by the click or by the sleep, ends
    the loop and is not raised: the run goes on to collect the listing
    cards and yields what that collection gives.  A fault of the
    navigation aborts the run with that exception before any other
    call, and an exception the run ends with is always that of the
    navigation or that of the final collection. *)
Theorem loop_faults_end_the_loop fuel url_ (full_load : bool) clicks t w :
  (forall e w0,
     driver_get driver url_ w = (Raise e, w0) ->
     load_elements driver fuel url_ full_load clicks t (w, []) =
     Some (Raise e, (w0, [(CallGet url_, Some e)]))) /\
  (forall w0 k w1 e w2,
     driver_get driver url_ w = (Ok tt, w0) ->
     expands driver t k w0 w1 ->
     round_fault driver t w1 e w2 ->
     (if full_load then (k < fuel)%nat else (Z.of_nat k < clicks)%Z) ->
     exists log,
       load_elements driver fuel url_ full_load clicks t (w, []) =
       Some (fst (collect driver w2),
             (snd (collect driver w2),
              log ++ [(collect_call, exn_of (fst (collect driver w2)))]))) /\
  (forall e w' log,
     load_elements driver fuel url_ full_load clicks t (w, []) =
     Some (Raise e, (w', log)) ->
     log = [(CallGet url_, Some e)] \/
     exists before, log = before ++ [(collect_call, Some e)]).
Proof.
  split; [|split].
  - intros e w0 Hget.
    apply (load_navigation_fault fuel url_ full_load clicks t w e w0 [] Hget).
  - intros w0 k w1 e w2 Hget Hex Hf Hk.
    destruct full_load.
    + destruct (while_true_break "Clicked 'Show More'"
                  "No more 'Show More' button found" t k w0 w1 Hex
                  e w2 fuel ([] ++ [(CallGet url_, None)]) Hf Hk)
        as (entries & Hrun).
      eexists.
      apply (load_after_loop fuel url_ true clicks t w w0 [] w2 _ Hget Hrun).
    + destruct (for_each_break
                  (fun i => "Clicked 'Show More' (" ++ str_of_int (i + 1)
                            ++ "/" ++ str_of_int clicks ++ ")")%string
                  "No more 'Show More' button found before reaching the target clicks"
                  t k w0 w1 Hex e w2 (range clicks)
                  ([] ++ [(CallGet url_, None)]) Hf)
        as (entries & Hrun & _).
      { rewrite PyFacts.range_length. lia. }
      eexists.
      eapply (load_after_loop fuel url_ false clicks t w w0 [] w2 _ Hget).
      f_equal. exact Hrun.
  - intros e w' log Hrun.
    destruct (driver_get driver url_ w) as [[[]|e0] w0] eqn:Hget.
    + right.
      assert (Hloop : exists w1 log1,
                 (if full_load
                  then while_true fuel (expand_full driver t)
                         (w0, [] ++ [(CallGet url_, None)])
                  else Some (for_each (expand_bounded driver clicks t)
                               (range clicks)
                               (w0, [] ++ [(CallGet url_, None)]))) =
                 Some (Ok tt, (w1, log1)) \/
                 load_elements driver fuel url_ full_load clicks t (w, []) =
                 None).
      { destruct full_load.
        - destruct (while_true fuel (expand_full driver t)
                      (w0, [] ++ [(CallGet url_, None)]))
            as [[r [w1 log1]]|] eqn:Hw.
          + destruct (while_true_no_raise _ _ _ _ _ _ _ _ Hw) as [-> _].
            exists w1, log1. left. reflexivity.
          + exists w0, []. right. unfold load_elements.
            rewrite call_run, Hget. cbn [fst snd exn_of]. cbv zeta.
            rewrite Hw. reflexivity.
        - destruct (for_each_bound
                      (fun i => "Clicked 'Show More' (" ++ str_of_int (i + 1)
                                ++ "/" ++ str_of_int clicks ++ ")")%string
                      "No more 'Show More' button found before reaching the target clicks"
                      t (range clicks) w0 ([] ++ [(CallGet url_, None)]))
            as (w1 & entries & Hfor & _).
          exists w1. eexists. left. f_equal. exact Hfor. }
      destruct Hloop as (w1 & log1 & [Hloop|Hnone]); [|congruence].
      rewrite (load_after_loop fuel url_ full_load clicks t w w0 [] w1 log1
                 Hget Hloop) in Hrun.
      injection Hrun as Hr Hw' Hlog.
      exists log1. rewrite <- Hlog, Hr. reflexivity.
    + left.
      rewrite (load_navigation_fault fuel url_ full_load clicks t w e0 w0 []
                 Hget) in Hrun.
      injection Hrun as -> _ <-. reflexivity.
Qed.

End Loader.

Section LoaderExamples.

Import Scripted.

Lemma two_rounds : expands browser 4%Z 2 results revealed.
Proof.
  eapply expands_more; [reflexivity..|].
  eapply expands_more; [reflexivity..|].
  apply expands_none.
Qed.

Lemma one_round : expands browser 4%Z 1 results half_revealed.
Proof. eapply expands_more; [reflexivity..|]. apply expands_none. Qed.

Lemma bounded_load_clicks_witness :
  (exists log,
     load_elements browser 0 "u" false 5 4%Z (results, []) =
     Some (Ok [backend; analyst; malformed], (revealed, log)) /\
     count is_wait log = 3%nat /\ count is_click log = 2%nat) /\
  (exists log,
     load_elements browser 0 "u" false 1 4%Z (results, []) =
     Some (Ok [backend; analyst], (half_revealed, log)) /\
     count is_wait log = 1%nat /\ count is_click log = 1%nat).
Proof.
  split.
  - destruct (bounded_load_clicks browser 0 "u" 5 4%Z results)
      as (_ & Hearly & _).
    apply (Hearly results 2%nat revealed TimeoutException revealed);
      [reflexivity|exact two_rounds|lia|reflexivity].
  - destruct (bounded_load_clicks browser 0 "u" 1 4%Z results)
      as (_ & _ & Hall).
    apply (Hall results half_revealed); [reflexivity|exact one_round].
Defined.

(** C4, as the specification has it, fails: a click that the page
    intercepts, or a sleep of negative length, is a fault other than the
    missing control, and the run that meets it still returns the cards
    instead of raising. *)
Lemma swallowed_faults :
  ~ other_faults_abort
      (load_elements browser 1 "u" true 1 4%Z (covered, [])) /\
  ~ other_faults_abort
      (load_elements browser 0 "u" false 1 (-1)%Z (results, [])).
Proof.
  split; intros H.
  - discriminate
      (H _ _ eq_refl (CallClick button) ElementClickInterceptedException
         ltac:(vm_compute; tauto) eq_refl).
  - discriminate
      (H _ _ eq_refl CallSleep ValueError ltac:(vm_compute; tauto) eq_refl).
Qed.

Lemma loop_faults_end_the_loop_witness :
  load_elements offline 0 "u" true 1 4%Z (results, []) =
    Some (Raise WebDriverException,
          (results, [(CallGet "u", Some WebDriverException)])) /\
  (exists log,
     load_elements browser 1 "u" true 1 4%Z (covered, []) =
     Some (Ok [backend],
           (covered, log ++ [(CallFindElements XPATH job_card_xpath, None)]))) /\
  (exists log,
     load_elements browser 0 "u" false 5 4%Z (results, []) =
     Some (Ok [backend; analyst; malformed],
           (revealed,
            log ++ [(CallFindElements XPATH job_card_xpath, None)]))).
Proof.
  split; [|split].
  - apply (loop_faults_end_the_loop offline 0 "u" true 1 4%Z results).
    reflexivity.
  - destruct (loop_faults_end_the_loop browser 1 "u" true 1 4%Z covered)
      as (_ & Hloop & _).
    apply (Hloop covered 0%nat covered ElementClickInterceptedException
             covered).
    + reflexivity.
    + apply expands_none.
    + eapply fault_in_click; reflexivity.
    + simpl. lia.
  - destruct (loop_faults_end_the_loop browser 0 "u" false 5 4%Z results)
      as (_ & Hloop & _).
    apply (Hloop results 2%nat revealed TimeoutException revealed).
    + reflexivity.
    + exact two_rounds.
    + apply fault_in_wait. reflexivity.
    + simpl. lia.
Defined.

End LoaderExamples.

(** ** Further properties of the extractor *)

Section ExtractorMore.

Import Scripted.

Lemma str_split_length sep s :
  length (str_split sep s) = S (count_char sep s).
Proof.
  induction s as [|c rest IH]; simpl; [reflexivity|].
  destruct (Ascii.eqb c sep); simpl.
  - rewrite IH. reflexivity.
  - destruct (str_split sep rest); simpl in *; [discriminate|exact IH].
Qed.

Lemma str_split_fields_free sep s :
  Forall (fun f => free_of sep f = true) (str_split sep s).
Proof.
  induction s as [|c rest IH]; simpl.
  - constructor; [reflexivity|constructor].
  - destruct (Ascii.eqb c sep) eqn:Hc.
    + constructor; [reflexivity|exact IH].
    + destruct (str_split sep rest) as [|f fs].
      * constructor; [|constructor]. simpl. rewrite Hc. reflexivity.
      * inversion IH as [|? ? Hf Hfs]; subst.
        constructor; [|exact Hfs]. simpl. rewrite Hc, Hf. reflexivity.
Qed.

(** Joining the fields of a split gives the string back. *)
Lemma str_join_split sep s :
  str_join (String sep EmptyString) (str_split sep s) = s.
Proof.
  induction s as [|c rest IH]; simpl; [reflexivity|].
  destruct (Ascii.eqb_spec c sep) as [->|Hne].
  - pose proof (PyFacts.str_split_not_nil sep rest) as Hnn.
    destruct (str_split sep rest) as [|f fs]; [congruence|].
    change (str_join (String sep EmptyString) (EmptyString :: f :: fs))
      with (String sep (str_join (String sep EmptyString) (f :: fs))).
    rewrite IH. reflexivity.
  - destruct (str_split sep rest) as [|f fs].
    + simpl in IH. rewrite <- IH. reflexivity.
    + destruct fs as [|g fs].
      * simpl in *. rewrite IH. reflexivity.
      * change (str_join (String sep EmptyString) (String c f :: g :: fs))
          with (String c (str_join (String sep EmptyString) (f :: g :: fs))).
        rewrite IH. reflexivity.
Qed.

Lemma has_six_is_five_breaks item :
  has_six_fields item = has_five_breaks item.
Proof.
  unfold has_six_fields, has_five_breaks, fields.
  rewrite str_split_length. reflexivity.
Qed.

(** X1. The extractor yields one record for each listing whose text
    holds at least five line breaks, in the order of these listings,
    and none for the others: each record is the one its listing yields,
    a listing with fewer line breaks is passed over, and the number of
    records is the number of listings with five line breaks. *)
Theorem records_count_five_breaks elements :
  exists outputs,
    get_search_jobs elements = Ok outputs /\
    Forall2 yields (filter has_five_breaks elements) outputs /\
    (forall item,
       In item elements -> has_five_breaks item = false ->
       summarize item = Ok None) /\
    length outputs = length (filter has_five_breaks elements) /\
    (length outputs <= length elements)%nat.
Proof.
  destruct (get_search_jobs_order elements) as (outputs & Hrun & HF).
  rewrite (filter_ext _ _ has_six_is_five_breaks) in HF.
  exists outputs. split; [exact Hrun|]. split; [exact HF|].
  split.
  - intros item _ Hshort. apply summarize_short.
    rewrite <- has_six_is_five_breaks in Hshort.
    unfold has_six_fields in Hshort. apply Nat.leb_gt in Hshort. lia.
  - assert (Hlen : length outputs =
                   length (filter has_five_breaks elements))
      by (symmetry; exact (Forall2_length HF)).
    split; [exact Hlen|]. rewrite Hlen. apply filter_length_le.
Qed.

Lemma records_count_five_breaks_witness :
  has_five_breaks malformed = false /\ summarize malformed = Ok None.
Proof.
  split; [reflexivity|].
  destruct (records_count_five_breaks [backend; malformed; analyst])
    as (outputs & _ & _ & Hskip & _).
  apply Hskip; [right; left; reflexivity|reflexivity].
Defined.

(** X2. Extraction goes listing by listing: the records of two
    sequences put end to end are the records of the first followed by
    the records of the second. *)
Theorem extraction_of_concatenation pre post :
  exists before after,
    get_search_jobs pre = Ok before /\
    get_search_jobs post = Ok after /\
    get_search_jobs (pre ++ post) = Ok (before ++ after).
Proof.
  destruct (get_search_jobs_total pre) as [before Hpre].
  destruct (get_search_jobs_total post) as [after Hpost].
  exists before, after. split; [exact Hpre|]. split; [exact Hpost|].
  apply get_search_jobs_app; assumption.
Qed.

Lemma yields_fields_free item output :
  yields item output ->
  Forall (fun f => free_of LF f = true) (text_fields output).
Proof.
  unfold yields. rewrite summarize_unfold. cbv zeta.
  pose proof (str_split_fields_free LF (text item)) as HF.
  fold (fields item) in HF.
  destruct (fields item) as [|f0 [|f1 [|f2 [|f3 [|f4 [|f5 more]]]]]];
    simpl; try discriminate.
  repeat match goal with
  | H : Forall _ (_ :: _) |- _ => inversion H; clear H; subst
  end.
  destruct more as [|f6 [|f7 more]]; simpl; intros [= <-];
    unfold text_fields; simpl;
    repeat match goal with
    | H : Forall _ (_ :: _) |- _ => inversion H; clear H; subst
    end;
    repeat (constructor; try assumption; try reflexivity).
Qed.

(** X3. No text field of a record holds a line break: title, category,
    location, position_type, salary, company and date are each a single
    line. *)
Theorem record_fields_are_single_lines elements outputs :
  get_search_jobs elements = Ok outputs ->
  forall output f,
    In output outputs -> In f (text_fields output) -> free_of LF f = true.
Proof.
  intros Hrun output f Hin Hf.
  destruct (get_search_jobs_order elements) as (outputs' & Hrun' & HF).
  rewrite Hrun in Hrun'. injection Hrun' as <-.
  assert (Hy : exists item, yields item output).
  { clear Hrun. induction HF as [|item o items outs Hy _ IH];
      [contradiction|].
    destruct Hin as [<-|Hin]; [exists item; exact Hy|exact (IH Hin)]. }
  destruct Hy as [item Hy].
  pose proof (yields_fields_free item output Hy) as Hfree.
  rewrite Forall_forall in Hfree. exact (Hfree f Hf).
Qed.

Lemma record_fields_are_single_lines_witness :
  get_search_jobs [backend; malformed; analyst] =
    Ok [backend_summary; analyst_summary] /\
  free_of LF (company analyst_summary) = true.
Proof.
  split; [reflexivity|].
  apply (record_fields_are_single_lines [backend; malformed; analyst]
           [backend_summary; analyst_summary] eq_refl analyst_summary).
  - right. left. reflexivity.
  - unfold text_fields. simpl. tauto.
Defined.

(** X4. The text of a listing with six or seven fields can be read
    back from its record: it is the fields of the record joined by line
    breaks, all seven when the listing had seven fields and all but the
    salary when it had six. *)
Theorem text_reads_back_from_record item output :
  yields item output ->
  (length (fields item) = 7%nat ->
   text item = str_join (String LF EmptyString) (text_fields output)) /\
  (length (fields item) = 6%nat ->
   text item =
   str_join (String LF EmptyString)
     [title output; category output; location output;
      position_type output; company output; date output]).
Proof.
  unfold yields. rewrite summarize_unfold. cbv zeta.
  pose proof (str_join_split LF (text item)) as Hback.
  fold (fields item) in Hback.
  destruct (fields item) as [|f0 [|f1 [|f2 [|f3 [|f4 [|f5 more]]]]]];
    simpl; try discriminate.
  destruct more as [|f6 [|f7 more]]; simpl; intros [= <-];
    (split; intros Hlen; [|]); try discriminate Hlen;
    unfold text_fields; simpl; symmetry; exact Hback.
Qed.

Lemma text_reads_back_from_record_witness :
  (yields backend backend_summary /\
   length (fields backend) = 7%nat /\
   text backend =
     str_join (String LF EmptyString) (text_fields backend_summary)) /\
  (yields analyst analyst_summary /\
   length (fields analyst) = 6%nat /\
   text analyst =
     str_join (String LF EmptyString)
       ["Data Analyst"; "Data"; "Remote/USA"; "Contract"; "BetaCorp";
        "2024-01-02"]).
Proof.
  split; (split; [reflexivity|]); (split; [reflexivity|]).
  - apply (text_reads_back_from_record backend backend_summary);
      reflexivity.
  - apply (text_reads_back_from_record analyst analyst_summary);
      reflexivity.
Defined.

End ExtractorMore.

(** ** Further properties of the URL builder *)

Section UrlBuilderMore.

Lemma plain_all tokens :
  forallb (fun s => free_of "," s && free_of "?" s && free_of "&" s) tokens
    = true ->
  forallb (free_of ",") tokens = true /\
  forallb (free_of "?") tokens = true /\
  forallb (free_of "&") tokens = true.
Proof.
  induction tokens as [|y l IH]; intros H; [auto|].
  simpl in H. apply andb_true_iff in H as [Hy Hl].
  apply andb_true_iff in Hy as [Hy Ha].
  apply andb_true_iff in Hy as [Hc Hq].
  destruct (IH Hl) as (IHc & IHq & IHa).
  simpl. rewrite Hc, Hq, Ha, IHc, IHq, IHa. auto.
Qed.

Lemma plain_tokens_spec tokens :
  plain_tokens tokens = true ->
  tokens <> [] /\
  forallb (free_of ",") tokens = true /\
  forallb (free_of "?") tokens = true /\
  forallb (free_of "&") tokens = true.
Proof.
  destruct tokens as [|x rest]; [discriminate|]. intros H.
  split; [discriminate|]. apply plain_all, H.
Qed.

Lemma str_of_int_inj n n' : str_of_int n = str_of_int n' -> n = n'.
Proof.
  intros H.
  pose proof (PyFacts.str_of_int_reads_back n) as Hn.
  rewrite H, PyFacts.str_of_int_reads_back in Hn. congruence.
Qed.

(** X5. On non-empty lists of tokens that hold no comma, question mark
    or ampersand, [make_url] is one to one: two searches with the same
    URL have the same locations, the same tags and the same day
    count. *)
Theorem make_url_one_to_one countries tags posted_since
    countries' tags' posted_since' :
  plain_tokens countries = true -> plain_tokens tags = true ->
  plain_tokens countries' = true -> plain_tokens tags' = true ->
  make_url countries tags posted_since =
  make_url countries' tags' posted_since' ->
  countries = countries' /\ tags = tags' /\ posted_since = posted_since'.
Proof.
  intros Hc Ht Hc' Ht' Hurl.
  apply plain_tokens_spec in Hc as (Hcn & Hcc & Hcq & Hca).
  apply plain_tokens_spec in Ht as (Htn & Htc & Htq & Hta).
  apply plain_tokens_spec in Hc' as (Hcn' & Hcc' & Hcq' & Hca').
  apply plain_tokens_spec in Ht' as (Htn' & Htc' & Htq' & Hta').
  apply (f_equal query_of) in Hurl.
  rewrite !make_url_query_of in Hurl
    by (rewrite forallb_app; apply andb_true_iff; split; assumption).
  injection Hurl as Htags Hcountries Hdays.
  apply (f_equal (str_split ",")) in Htags, Hcountries.
  rewrite !PyFacts.str_split_join in Htags, Hcountries by assumption.
  apply str_of_int_inj in Hdays. auto.
Qed.

Lemma make_url_one_to_one_witness :
  plain_tokens Scripted.script_countries = true /\
  plain_tokens Scripted.script_tags = true /\
  (Scripted.script_countries = Scripted.script_countries /\
   Scripted.script_tags = Scripted.script_tags /\ 14%Z = 14%Z).
Proof.
  split; [reflexivity|]. split; [reflexivity|].
  apply (make_url_one_to_one Scripted.script_countries Scripted.script_tags
           14 Scripted.script_countries Scripted.script_tags 14);
    reflexivity.
Defined.

Lemma str_join_comma_token x y rest :
  str_join "," ((x ++ "," ++ y)%string :: rest) = str_join "," (x :: y :: rest).
Proof.
  destruct rest as [|z rest]; [reflexivity|].
  change (str_join "," ((x ++ "," ++ y)%string :: z :: rest))
    with ((x ++ "," ++ y) ++ "," ++ str_join "," (z :: rest))%string.
  change (str_join "," (x :: y :: z :: rest))
    with (x ++ "," ++ (y ++ "," ++ str_join "," (z :: rest)))%string.
  rewrite <- !str_app_assoc. reflexivity.
Qed.

(** X6. [make_url] neither escapes nor checks its tokens: a token that
    holds a comma gives the URL of the two tokens it is made of, for
    tags and for locations alike, and an empty list gives the URL of
    the list of one empty token. *)
Theorem make_url_does_not_escape countries tags posted_since x y :
  make_url countries ((x ++ "," ++ y)%string :: tags) posted_since =
    make_url countries (x :: y :: tags) posted_since /\
  make_url ((x ++ "," ++ y)%string :: countries) tags posted_since =
    make_url (x :: y :: countries) tags posted_since /\
  make_url [] tags posted_since = make_url [EmptyString] tags posted_since /\
  make_url countries [] posted_since =
    make_url countries [EmptyString] posted_since.
Proof.
  unfold make_url. rewrite !str_join_comma_token. repeat split.
Qed.

End UrlBuilderMore.

(** ** Further properties of the loader *)

Section LoaderMore.

Context {World Duration : Type} (driver : Browser World Duration).

Ltac step_round :=
  unfold expand, try_except, bind, print, ret, call; simpl;
  repeat match goal with
  | H : ?op = (_, _) |- context [?op] => rewrite H; simpl
  end;
  rewrite <- ?app_assoc; simpl.

(** Every round leaves one of the four logs of a round. *)
Lemma expand_round_log m1 m2 t w log :
  exists fl w' entries,
    expand driver m1 m2 t (w, log) = (Ok fl, (w', log ++ entries)) /\
    round_log fl entries.
Proof.
  destruct (until_clickable driver 5 CLASS_NAME show_more_class w)
    as [[el|e] w1] eqn:Hw.
  - destruct (click driver el w1) as [[[]|e] w2] eqn:Hc.
    + destruct (sleep driver t w2) as [[[]|e] w3] eqn:Hs.
      * exists Next, w3. eexists. split; [step_round; reflexivity|].
        constructor.
      * exists Break, w3. eexists. split; [step_round; reflexivity|].
        constructor.
    + exists Break, w2. eexists. split; [step_round; reflexivity|].
      constructor.
  - exists Break, w1. eexists. split; [step_round; reflexivity|].
    constructor.
Qed.

Lemma while_true_log fuel m1 m2 t : forall w log r w' log',
  while_true fuel (expand driver m1 m2 t) (w, log) = Some (r, (w', log')) ->
  r = Ok tt /\ exists entries, log' = log ++ entries /\ loop_log entries.
Proof.
  induction fuel as [|fuel IH]; intros w log r w' log'; simpl;
    [discriminate|].
  destruct (expand_round_log m1 m2 t w log) as (fl & w1 & entries & He & Hl).
  rewrite He. destruct fl.
  - intros Hrun. destruct (IH _ _ _ _ _ Hrun) as (Hr & more & Hlog & Hmore).
    split; [exact Hr|]. exists (entries ++ more).
    rewrite Hlog, app_assoc. split; [reflexivity|].
    apply loop_round; assumption.
  - intros [= <- <- <-]. split; [reflexivity|]. exists entries.
    split; [reflexivity|]. apply loop_broken, Hl.
Qed.

Lemma for_each_log {I} (m1 : I -> string) m2 t (values : list I) :
  forall w log,
  exists w' entries,
    for_each (fun i => expand driver (m1 i) m2 t) values (w, log) =
    (Ok tt, (w', log ++ entries)) /\
    loop_log entries.
Proof.
  induction values as [|i rest IH]; intros w log; simpl.
  - exists w, []. rewrite app_nil_r. split; [reflexivity|constructor].
  - destruct (expand_round_log (m1 i) m2 t w log)
      as (fl & w1 & entries & He & Hl).
    rewrite He. destruct fl.
    + destruct (IH w1 (log ++ entries)) as (w' & more & Hrun & Hmore).
      exists w', (entries ++ more). rewrite Hrun, app_assoc.
      split; [reflexivity|]. apply loop_round; assumption.
    + exists w1, entries. split; [reflexivity|]. apply loop_broken, Hl.
Qed.

(** X7. The log of a run of [load_elements] that ends is the
    navigation alone when the navigation raises; otherwise it is the
    navigation, then rounds of the expand loop that go through, then at
    most one round that breaks, then the collection of the cards, whose
    outcome is the outcome of the run. *)
Theorem load_log_shape fuel url_ (full_load : bool) clicks t w r w' log :
  load_elements driver fuel url_ full_load clicks t (w, []) =
    Some (r, (w', log)) ->
  (exists e, r = Raise e /\ log = [(CallGet url_, Some e)]) \/
  (exists entries,
     loop_log entries /\
     log = (CallGet url_, None) :: entries ++
           [(CallFindElements XPATH job_card_xpath, exn_of r)]).
Proof.
  intros Hrun.
  destruct (driver_get driver url_ w) as [[[]|e] w0] eqn:Hget.
  - right.
    assert (Hloop : exists w1 entries,
               loop_log entries /\
               (if full_load
                then while_true fuel (expand_full driver t)
                       (w0, [] ++ [(CallGet url_, None)])
                else Some (for_each (expand_bounded driver clicks t)
                             (range clicks)
                             (w0, [] ++ [(CallGet url_, None)]))) =
               Some (Ok tt, (w1, ([] ++ [(CallGet url_, None)]) ++ entries))).
    { destruct full_load.
      - destruct (while_true fuel (expand_full driver t)
                    (w0, [] ++ [(CallGet url_, None)]))
          as [[r1 [w1 log1]]|] eqn:Hw.
        + destruct (while_true_log _ _ _ _ _ _ _ _ _ Hw)
            as (-> & entries & -> & Hl).
          exists w1, entries. split; [exact Hl|reflexivity].
        + exfalso. unfold load_elements in Hrun.
          rewrite call_run, Hget in Hrun. cbn [fst snd exn_of] in Hrun.
          cbv zeta in Hrun. rewrite Hw in Hrun. discriminate.
      - destruct (for_each_log
                    (fun i => "Clicked 'Show More' (" ++ str_of_int (i + 1)
                              ++ "/" ++ str_of_int clicks ++ ")")%string
                    "No more 'Show More' button found before reaching the target clicks"
                    t (range clicks) w0 ([] ++ [(CallGet url_, None)]))
          as (w1 & entries & Hfor & Hl).
        exists w1, entries. split; [exact Hl|]. f_equal. exact Hfor. }
    destruct Hloop as (w1 & entries & Hl & Hloop).
    rewrite (load_after_loop driver fuel url_ full_load clicks t w w0 [] w1 _
               Hget Hloop) in Hrun.
    injection Hrun as Hr Hw' Hlog.
    exists entries. split; [exact Hl|].
    rewrite <- Hlog, Hr. reflexivity.
  - left. exists e.
    rewrite (load_navigation_fault driver fuel url_ full_load clicks t w e w0
               [] Hget) in Hrun.
    injection Hrun as <- _ <-. split; reflexivity.
Qed.

Lemma round_log_counts fl entries :
  round_log fl entries ->
  count is_get entries = 0%nat /\
  count is_lookup entries = 0%nat /\
  count is_click entries =
    count (fun en => is_wait en && answered en) entries /\
  count is_sleep entries =
    count (fun en => is_click en && answered en) entries.
Proof. intros H; inversion H; subst; unfold count; simpl; auto. Qed.

Lemma loop_log_counts entries :
  loop_log entries ->
  count is_get entries = 0%nat /\
  count is_lookup entries = 0%nat /\
  count is_click entries =
    count (fun en => is_wait en && answered en) entries /\
  count is_sleep entries =
    count (fun en => is_click en && answered en) entries.
Proof.
  induction 1 as [|entries Hr|entries rest Hr _ IH].
  - unfold count. simpl. auto.
  - exact (round_log_counts _ _ Hr).
  - destruct (round_log_counts _ _ Hr) as (Hg & Hl & Hc & Hs).
    destruct IH as (Hg' & Hl' & Hc' & Hs').
    rewrite !count_app. repeat split; lia.
Qed.

(** X8. In a run of [load_elements] that ends, the session is
    navigated once and the cards are looked up at most once; the
    control is clicked as many times as the wait found it clickable,
    and the run sleeps as many times as a click went through: no click
    without a control found, no pause without a click made. *)
Theorem load_call_discipline fuel url_ (full_load : bool) clicks t w
    r w' log :
  load_elements driver fuel url_ full_load clicks t (w, []) =
    Some (r, (w', log)) ->
  count is_get log = 1%nat /\
  (count is_lookup log <= 1)%nat /\
  count is_click log = count (fun en => is_wait en && answered en) log /\
  count is_sleep log = count (fun en => is_click en && answered en) log.
Proof.
  intros Hrun.
  destruct (load_log_shape _ _ _ _ _ _ _ _ _ Hrun)
    as [(e & _ & ->)|(entries & Hl & ->)].
  - unfold count. simpl. auto.
  - destruct (loop_log_counts _ Hl) as (Hg & Hk & Hc & Hs).
    change ((CallGet url_, None) :: entries ++
            [(CallFindElements XPATH job_card_xpath, exn_of r)])
      with ([(CallGet url_, @None exn)] ++ entries ++
            [(CallFindElements XPATH job_card_xpath, exn_of r)]).
    rewrite !count_app, Hg, Hk, <- Hc, <- Hs.
    unfold count. simpl. repeat split; lia.
Qed.

Lemma while_true_break_counts m1 m2 t k w w1 :
  expands driver t k w w1 ->
  forall e w2 fuel log,
    round_fault driver t w1 e w2 ->
    (k < fuel)%nat ->
    exists entries,
      while_true fuel (expand driver m1 m2 t) (w, log) =
      Some (Ok tt, (w2, log ++ entries)) /\
      count is_wait entries = S k /\
      (unavailable driver w1 e w2 -> count is_click entries = k).
Proof.
  induction 1 as [w|k w el wa wb wc w1 Hw Hc Hs _ IH];
    intros e w2 fuel log Hf Hk;
    (destruct fuel as [|fuel]; [lia|]); simpl.
  - destruct (expand_break driver m1 m2 t w e w2 log Hf)
      as (entries & He & Hn & _ & Hu).
    rewrite He. exists entries. auto.
  - rewrite (expand_next driver m1 m2 t w el wa wb wc log Hw Hc Hs).
    destruct (IH e w2 fuel
                (log ++ [(CallUntilClickable 5 CLASS_NAME show_more_class,
                          None);
                         (CallClick el, None);
                         (CallPrint m1, None); (CallSleep, None)])
                Hf ltac:(lia)) as (entries & Hrun & Hn & Hu).
    rewrite Hrun, <- app_assoc. eexists. split; [reflexivity|].
    rewrite !count_app, Hn. split; [reflexivity|].
    intros Hun. rewrite (Hu Hun). reflexivity.
Qed.

(** X9. In exhaustive mode, when [k] rounds go through and the control
    is then unavailable, a run with fuel for more than [k] rounds ends:
    it has waited [k + 1] times and clicked [k] times, and it yields
    what the collection of the cards gives on the page as the failed
    wait left it. *)
Theorem exhaustive_load_clicks fuel url_ clicks t w w0 k w1 e w2 :
  driver_get driver url_ w = (Ok tt, w0) ->
  expands driver t k w0 w1 ->
  unavailable driver w1 e w2 ->
  (k < fuel)%nat ->
  exists log,
    load_elements driver fuel url_ true clicks t (w, []) =
    Some (fst (collect driver w2), (snd (collect driver w2), log)) /\
    count is_wait log = S k /\
    count is_click log = k.
Proof.
  intros Hget Hex Hun Hk.
  assert (Hf : round_fault driver t w1 e w2)
    by (apply fault_in_wait; exact Hun).
  destruct (while_true_break_counts "Clicked 'Show More'"
              "No more 'Show More' button found" t k w0 w1 Hex e w2 fuel
              ([] ++ [(CallGet url_, None)]) Hf Hk)
    as (entries & Hrun & Hn & Hc).
  specialize (Hc Hun).
  eexists. split.
  - apply (load_after_loop driver fuel url_ true clicks t w w0 [] w2 _
             Hget Hrun).
  - rewrite !count_app. unfold count in *. simpl. split; lia.
Qed.

Lemma always_expands_next t w el w1 w2 w3 :
  always_expands driver t w ->
  until_clickable driver 5 CLASS_NAME show_more_class w = (Ok el, w1) ->
  click driver el w1 = (Ok tt, w2) ->
  sleep driver t w2 = (Ok tt, w3) ->
  always_expands driver t w3.
Proof.
  intros Hall Hw Hc Hs k.
  destruct (Hall (S k)) as [w' Hex].
  inversion Hex as [|k' w0 el' wa wb wc w'' Hw' Hc' Hs' Hrest]; subst.
  rewrite Hw in Hw'. injection Hw' as <- <-.
  rewrite Hc in Hc'. injection Hc' as <-.
  rewrite Hs in Hs'. injection Hs' as <-.
  exists w'. exact Hrest.
Qed.

Lemma while_true_never_ends m1 m2 t fuel : forall w log,
  always_expands driver t w ->
  while_true fuel (expand driver m1 m2 t) (w, log) = None.
Proof.
  induction fuel as [|fuel IH]; intros w log Hall; simpl; [reflexivity|].
  destruct (Hall 1%nat) as [w' Hex].
  inversion Hex as [|k' w0 el wa wb wc w'' Hw Hc Hs Hrest]; subst.
  rewrite (expand_next driver m1 m2 t w el wa wb wc log Hw Hc Hs).
  apply IH. exact (always_expands_next t w el wa wb wc Hall Hw Hc Hs).
Qed.

(** X11. In exhaustive mode on a page whose control never runs out,
    [load_elements] does not return: no amount of fuel gives a
    result. *)
Theorem exhaustive_load_never_returns fuel url_ clicks t w w0 :
  driver_get driver url_ w = (Ok tt, w0) ->
  always_expands driver t w0 ->
  load_elements driver fuel url_ true clicks t (w, []) = None.
Proof.
  intros Hget Hall. unfold load_elements.
  rewrite call_run, Hget. cbn [fst snd exn_of]. cbv zeta.
  unfold expand_full. rewrite (while_true_never_ends _ _ _ _ _ _ Hall).
  reflexivity.
Qed.

(** X12. In bounded mode with a click bound that is zero or negative
    no round is made: after the navigation the cards are collected at
    once, and the log holds these two calls only. *)
Theorem bounded_load_without_clicks fuel url_ clicks t w w0 :
  driver_get driver url_ w = (Ok tt, w0) ->
  (clicks <= 0)%Z ->
  load_elements driver fuel url_ false clicks t (w, []) =
  Some (fst (collect driver w0),
        (snd (collect driver w0),
         [(CallGet url_, None);
          (CallFindElements XPATH job_card_xpath,
           exn_of (fst (collect driver w0)))])).
Proof.
  intros Hget Hle.
  rewrite (load_after_loop driver fuel url_ false clicks t w w0 [] w0
             [(CallGet url_, None)] Hget); [reflexivity|].
  unfold range. replace (Z.to_nat clicks) with 0%nat by lia. reflexivity.
Qed.

End LoaderMore.

Section LoaderMoreExamples.

Import Scripted.

Lemma endless_rounds k : forall n, expands endless 4%Z k n (k + n).
Proof.
  induction k as [|k IH]; intros n; [apply expands_none|].
  eapply expands_more; [reflexivity..|].
  replace (S k + n)%nat with (k + S n)%nat by lia. apply IH.
Qed.

Lemma load_log_shape_witness :
  exists r w' log,
    load_elements browser 0 "u" false 5 4%Z (results, []) =
      Some (r, (w', log)) /\
    ((exists e, r = Raise e /\ log = [(CallGet "u", Some e)]) \/
     (exists entries,
        loop_log entries /\
        log = (CallGet "u", None) :: entries ++
              [(CallFindElements XPATH job_card_xpath, exn_of r)])).
Proof.
  do 3 eexists. split; [reflexivity|].
  eapply (load_log_shape browser 0 "u" false 5 4%Z results). reflexivity.
Defined.

Lemma load_call_discipline_witness :
  exists r w' log,
    load_elements browser 4 "u" true 1 4%Z (results, []) =
      Some (r, (w', log)) /\
    count is_get log = 1%nat /\
    (count is_lookup log <= 1)%nat /\
    count is_click log = count (fun en => is_wait en && answered en) log /\
    count is_sleep log = count (fun en => is_click en && answered en) log.
Proof.
  do 3 eexists. split; [reflexivity|].
  eapply (load_call_discipline browser 4 "u" true 1 4%Z results).
  reflexivity.
Defined.

Lemma exhaustive_load_clicks_witness :
  exists log,
    load_elements browser 3 "u" true 1 4%Z (results, []) =
    Some (Ok [backend; analyst; malformed], (revealed, log)) /\
    count is_wait log = 3%nat /\
    count is_click log = 2%nat.
Proof.
  apply (exhaustive_load_clicks browser 3 "u" 1 4%Z results results 2
           revealed TimeoutException revealed);
    [reflexivity|exact two_rounds|reflexivity|lia].
Defined.

Lemma exhaustive_load_never_returns_witness :
  always_expands endless 4%Z 0%nat /\
  load_elements endless 1000 "u" true 1 4%Z (0%nat, []) = None.
Proof.
  assert (Hall : always_expands endless 4%Z 0%nat).
  { intros k. exists (k + 0)%nat. apply endless_rounds. }
  split; [exact Hall|].
  apply (exhaustive_load_never_returns endless 1000 "u" 1 4%Z 0%nat 0%nat);
    [reflexivity|exact Hall].
Defined.

Lemma bounded_load_without_clicks_witness :
  load_elements browser 0 "u" false (-3) 4%Z (results, []) =
  Some (Ok [backend],
        (results,
         [(CallGet "u", None);
          (CallFindElements XPATH job_card_xpath, None)])).
Proof.
  apply (bounded_load_without_clicks browser 0 "u" (-3) 4%Z results results);
    [reflexivity|lia].
Defined.

End LoaderMoreExamples.

(** ** Further properties of the detail fetcher *)

Section DetailFetcherMore.

Context {World Duration : Type} (driver : Browser World Duration).

Lemma get_job_data_found url_ w w1 detail w2 tags w3 log :
  driver_get driver url_ w = (Ok tt, w1) ->
  find_element driver CLASS_NAME "job-detail" w1 = (Ok detail, w2) ->
  find_elements driver CLASS_NAME "tag" w2 = (Ok tags, w3) ->
  get_job_data driver url_ (w, log) =
  (Ok {| detail_url := url_; description := text detail;
         keywords := map text (filter labelled tags) |},
   (w3, log ++ [(CallGet url_, None);
                (CallFindElement CLASS_NAME "job-detail", None);
                (CallFindElements CLASS_NAME "tag", None)])).
Proof.
  intros Hget Hfind Htags.
  unfold get_job_data, bind, call, ret. simpl.
  rewrite Hget. simpl. rewrite Hfind. simpl. rewrite Htags. simpl.
  rewrite tag_texts_filter, <- !app_assoc. reflexivity.
Qed.

Lemma has_ink_iff s : has_ink s = true <-> strip s <> EmptyString.
Proof.
  rewrite PyFacts.strip_empty_iff. unfold has_ink.
  induction (list_ascii_of_string s) as [|c l IH]; simpl.
  - split; [discriminate|congruence].
  - destruct (isspace c); simpl; [exact IH|].
    split; [discriminate|reflexivity].
Qed.

(** X13. The keywords of a detail page are the texts of its tag
    elements that hold a character other than whitespace, taken as they
    are and not trimmed; there are no more keywords than tag
    elements. *)
Theorem keywords_are_inked_texts url_ w w1 detail w2 tags w3 log d s :
  driver_get driver url_ w = (Ok tt, w1) ->
  find_element driver CLASS_NAME "job-detail" w1 = (Ok detail, w2) ->
  find_elements driver CLASS_NAME "tag" w2 = (Ok tags, w3) ->
  get_job_data driver url_ (w, log) = (Ok d, s) ->
  (forall k, In k (keywords d) <->
             exists e, In e tags /\ text e = k /\ has_ink k = true) /\
  (length (keywords d) <= length tags)%nat.
Proof.
  intros Hget Hfind Htags Hrun.
  rewrite (get_job_data_found url_ w w1 detail w2 tags w3 log
             Hget Hfind Htags) in Hrun.
  injection Hrun as <- _. simpl. split.
  - intros k. rewrite in_map_iff. split.
    + intros (e & <- & Hin). apply filter_In in Hin as [Hin Hlab].
      exists e. split; [exact Hin|]. split; [reflexivity|].
      apply has_ink_iff, labelled_iff, Hlab.
    + intros (e & Hin & <- & Hink). exists e. split; [reflexivity|].
      apply filter_In. split; [exact Hin|].
      apply labelled_iff, has_ink_iff, Hink.
  - rewrite length_map. apply filter_length_le.
Qed.

(** X14. [get_job_data] catches nothing: a navigation that raises ends
    it at once with that exception, and a lookup of the tags that
    raises ends it with that exception although the description was
    found; in neither case is a record returned. *)
Theorem detail_faults_are_raised url_ w log :
  (forall e w1,
     driver_get driver url_ w = (Raise e, w1) ->
     get_job_data driver url_ (w, log) =
     (Raise e, (w1, log ++ [(CallGet url_, Some e)]))) /\
  (forall w1 detail w2 e w3,
     driver_get driver url_ w = (Ok tt, w1) ->
     find_element driver CLASS_NAME "job-detail" w1 = (Ok detail, w2) ->
     find_elements driver CLASS_NAME "tag" w2 = (Raise e, w3) ->
     get_job_data driver url_ (w, log) =
     (Raise e,
      (w3, log ++ [(CallGet url_, None);
                   (CallFindElement CLASS_NAME "job-detail", None);
                   (CallFindElements CLASS_NAME "tag", Some e)]))).
Proof.
  split.
  - intros e w1 Hget. unfold get_job_data, bind, call. simpl.
    rewrite Hget. reflexivity.
  - intros w1 detail w2 e w3 Hget Hfind Htags.
    unfold get_job_data, bind, call. simpl.
    rewrite Hget. simpl. rewrite Hfind. simpl. rewrite Htags. simpl.
    rewrite <- !app_assoc. reflexivity.
Qed.

Lemma get_job_data_log url_ s :
  exists entries,
    snd (snd (get_job_data driver url_ s)) = snd s ++ entries /\
    count is_get entries = 1%nat.
Proof.
  destruct s as [w log].
  unfold get_job_data, bind, call, ret. simpl.
  destruct (driver_get driver url_ w) as [[[]|e] w1]; simpl.
  - destruct (find_element driver CLASS_NAME "job-detail" w1)
      as [[detail|e] w2]; simpl.
    + destruct (find_elements driver CLASS_NAME "tag" w2)
        as [[tags|e] w3]; simpl;
        rewrite <- !app_assoc; eexists; split; reflexivity.
    + rewrite <- !app_assoc. eexists. split; reflexivity.
  - eexists. split; reflexivity.
Qed.

(** X15. [get_job_data] keeps nothing from one call to the next:
    fetching a page again after it was fetched navigates again, so the
    two calls navigate twice. *)
Theorem detail_is_fetched_anew url_ s d s1 :
  get_job_data driver url_ s = (Ok d, s1) ->
  count is_get (snd (snd (get_job_data driver url_ s1))) =
  (2 + count is_get (snd s))%nat.
Proof.
  intros Hrun.
  destruct (get_job_data_log url_ s) as (first & Hfirst & Hn).
  destruct (get_job_data_log url_ s1) as (second & Hsecond & Hm).
  rewrite Hrun in Hfirst. simpl in Hfirst.
  rewrite Hsecond, Hfirst, !count_app. lia.
Qed.

End DetailFetcherMore.

Section DetailFetcherMoreExamples.

Import Scripted.

Lemma keywords_are_inked_texts_witness :
  get_job_data browser "u" (posting, []) =
    (Ok {| detail_url := "u"; description := "We are hiring.";
           keywords := ["python"; "sql"; "python"] |},
     (posting, [(CallGet "u", None);
                (CallFindElement CLASS_NAME "job-detail", None);
                (CallFindElements CLASS_NAME "tag", None)])) /\
  (length ["python"; "sql"; "python"] <= length (tag_labels posting))%nat.
Proof.
  split; [reflexivity|].
  apply (keywords_are_inked_texts browser "u" posting posting
           (tag "We are hiring.") posting (tag_labels posting) posting []
           {| detail_url := "u"; description := "We are hiring.";
              keywords := ["python"; "sql"; "python"] |}
           (posting, [(CallGet "u", None);
                      (CallFindElement CLASS_NAME "job-detail", None);
                      (CallFindElements CLASS_NAME "tag", None)]));
    reflexivity.
Defined.

Lemma detail_faults_are_raised_witness :
  get_job_data offline "u" (posting, []) =
    (Raise WebDriverException,
     (posting, [(CallGet "u", Some WebDriverException)])) /\
  get_job_data flaky "u" (posting, []) =
    (Raise WebDriverException,
     (posting, [(CallGet "u", None);
                (CallFindElement CLASS_NAME "job-detail", None);
                (CallFindElements CLASS_NAME "tag",
                 Some WebDriverException)])).
Proof.
  split.
  - apply (proj1 (detail_faults_are_raised offline "u" posting [])).
    reflexivity.
  - apply (proj2 (detail_faults_are_raised flaky "u" posting [])
             posting (tag "We are hiring.") posting WebDriverException
             posting); reflexivity.
Defined.

Lemma detail_is_fetched_anew_witness :
  count is_get
    (snd (snd (get_job_data browser "u"
                 (posting,
                  [(CallGet "u", None);
                   (CallFindElement CLASS_NAME "job-detail", None);
                   (CallFindElements CLASS_NAME "tag", None)])))) = 2%nat.
Proof.
  apply (detail_is_fetched_anew browser "u" (posting, [])
           {| detail_url := "u"; description := "We are hiring.";
              keywords := ["python"; "sql"; "python"] |}
           (posting,
            [(CallGet "u", None);
             (CallFindElement CLASS_NAME "job-detail", None);
             (CallFindElements CLASS_NAME "tag", None)])).
  reflexivity.
Defined.

End DetailFetcherMoreExamples.

(** ** The session provider *)

Section SessionProvider.

Context {Driver : Type}.

(** X16. [web_driver] launches Chrome with the five fixed arguments in
    the order of the code, followed by [user-agent=s] exactly when the
    user agent [s] is a non-empty string: no user agent and the empty
    user agent give the same launch.  No call of [add_argument] raises,
    and when the installation of the driver binary raises, so does
    [web_driver], whatever the user agent. *)
Theorem web_driver_arguments (install : result string)
    (chrome : string -> list string -> result Driver) :
  web_driver install chrome None =
    web_driver install chrome (Some EmptyString) /\
  web_driver install chrome None =
    (path <-? install ;;
     chrome path ["--headless"; "--no-sandbox"; "--disable-gpu";
                  "--window-size=1920,1200"; "--disable-dev-shm-usage"]) /\
  (forall s,
     s <> EmptyString ->
     web_driver install chrome (Some s) =
     (path <-? install ;;
      chrome path ["--headless"; "--no-sandbox"; "--disable-gpu";
                   "--window-size=1920,1200"; "--disable-dev-shm-usage";
                   ("user-agent=" ++ s)%string])) /\
  (forall e user_agent_string,
     install = Raise e ->
     web_driver install chrome user_agent_string = Raise e).
Proof.
  split; [reflexivity|]. split; [reflexivity|]. split.
  - intros s Hs. unfold web_driver. simpl.
    destruct (String.eqb_spec s EmptyString) as [Heq|_]; [contradiction|].
    reflexivity.
  - intros e [s|] ->; unfold web_driver; simpl; [|reflexivity].
    destruct (String.eqb s EmptyString); reflexivity.
Qed.

End SessionProvider.

Lemma web_driver_arguments_witness :
  web_driver (Ok "/usr/bin/chromedriver") (fun _ arguments => Ok arguments)
    (Some "Mozilla/5.0") =
  Ok ["--headless"; "--no-sandbox"; "--disable-gpu";
      "--window-size=1920,1200"; "--disable-dev-shm-usage";
      "user-agent=Mozilla/5.0"] /\
  web_driver (Raise WebDriverException)
    (fun _ arguments => Ok arguments) (Some "Mozilla/5.0") =
  Raise WebDriverException.
Proof.
  split.
  - apply (proj1 (proj2 (proj2
             (web_driver_arguments (Ok "/usr/bin/chromedriver")
                (fun _ arguments => Ok arguments)))) "Mozilla/5.0").
    discriminate.
  - apply (proj2 (proj2 (proj2
             (web_driver_arguments (Raise WebDriverException)
                (fun _ arguments => Ok arguments))))
             WebDriverException (Some "Mozilla/5.0")).
    reflexivity.
Defined.
